(** * AudioQueuePlayFileExample: the buffer sizing policy and the refill
      callback of [PlayingAudioExample/main.cpp], embedded in Rocq.

    The program plays one audio file through an Audio Queue with three
    buffers.  The embedding follows [main.cpp] function by function:

    - [Machine]:  the C++ scalar types the program computes with
      ([UInt32], [SInt64], [Float64]) and their conversions;
    - [Sizing]:   [DeriveBufferSize];
    - [Player]:   [AQPlayerState], the audio queue and the audio file as
      the callback sees them, [HandleOutputBuffer] and the priming loop;
    - [Session]:  [PrintResultCodes], [CheckError], the initialisation
      sequence and [main];
    - [Examples]: formats, files and runs used to evaluate the above.

    The audio file and the audio queue are outside the program: a world
    records what the program asked of them (the trace) and what they hold
    (buffers, the queue of buffers to play, the reads still to be answered).
    The statuses the operating system returns are the environment of a run.
    Of the program's output only the messages of [PrintResultCodes] and
    [CheckError] are kept; the progress lines written with [printf] are
    not. *)

From Stdlib Require Import ZArith Lia List Bool String Ascii QArith Qpower Qround.
From Stdlib.Strings Require Import Byte.
From Stdlib Require Import Floats.SpecFloat.
Import ListNotations.

Local Open Scope Z_scope.

(* ================================================================== *)
(** * Scalar types *)
(* ================================================================== *)

Module Machine.

(** [UInt32] values are integers in [[0, 2^32)]. *)
Definition UInt32_MAX : Z := 0xFFFFFFFF.

(** [SInt64] values are integers in [[-2^63, 2^63)].  Addition that leaves
    the range is undefined in C++; the machine wraps around, and
    [SInt64_add] writes that wrap-around out. *)
Definition SInt64_MIN : Z := - 0x8000000000000000.
Definition SInt64_MAX : Z := 0x7FFFFFFFFFFFFFFF.
Definition is_SInt64 (n : Z) : Prop := SInt64_MIN <= n <= SInt64_MAX.

Definition SInt64_wrap (n : Z) : Z := (n + 2 ^ 63) mod 2 ^ 64 - 2 ^ 63.
Definition SInt64_add (a b : Z) : Z := SInt64_wrap (a + b).

(** [Float64] is IEEE 754 binary64, with the Standard Library's
    executable specification of its operations (round to nearest even). *)
Definition Float64 : Type := spec_float.

Definition Float64_mul : Float64 -> Float64 -> Float64 := SFmul 53 1024.
Definition Float64_div : Float64 -> Float64 -> Float64 := SFdiv 53 1024.

(** The double [m * 2^e], rounded if [m] has more than 53 bits. *)
Definition Float64_of_Z (m e : Z) : Float64 := binary_normalize 53 1024 m e false.

(** Integral promotion of a [UInt32] operand to [double]: exact. *)
Definition Float64_of_UInt32 (n : Z) : Float64 := Float64_of_Z n 0.

(** Conversion of a [double] to [UInt32] truncates toward zero; it is
    undefined ([None]) when the truncated value is not a [UInt32], and for
    infinities and NaN. *)
Definition Float64_to_UInt32 (x : Float64) : option Z :=
  match x with
  | S754_zero _ => Some 0
  | S754_finite s m e =>
      let t := Z.shiftl (Zpos m) e in
      if s then (if t =? 0 then Some 0 else None)
      else if t <=? UInt32_MAX then Some t else None
  | S754_infinity _ | S754_nan => None
  end.

(** The rational number a finite double stands for. *)
Definition Float64_value (x : Float64) : option Q :=
  match x with
  | S754_zero _ => Some 0%Q
  | S754_finite s m e =>
      let v := (inject_Z (Zpos m) * Qpower 2 e)%Q in
      Some (if s then Qopp v else v)
  | S754_infinity _ | S754_nan => None
  end.

(** Smallest integer not below a finite double. *)
Definition Float64_ceil (x : Float64) : option Z :=
  match x with
  | S754_zero _ => Some 0
  | S754_finite s m e =>
      let up := - Z.shiftl (Zneg m) e in
      Some (if s then - Z.shiftl (Zpos m) e else up)
  | S754_infinity _ | S754_nan => None
  end.

End Machine.

(* ================================================================== *)
(** * The buffer sizing policy *)
(* ================================================================== *)

Module Sizing.
Import Machine.

(** [AudioStreamBasicDescription], from CoreAudioTypes.h. *)
Record AudioStreamBasicDescription : Type := {
  mSampleRate       : Float64;
  mFormatID         : Z;
  mFormatFlags      : Z;
  mBytesPerPacket   : Z;
  mFramesPerPacket  : Z;
  mBytesPerFrame    : Z;
  mChannelsPerFrame : Z;
  mBitsPerChannel   : Z;
  mReserved         : Z
}.

Definition maxBufferSize : Z := 0x50000.  (* 320 kBytes *)
Definition minBufferSize : Z := 0x4000.   (* 16 kBytes *)

(** [numPacketsForTime]: frames per second / frames per packet * seconds. *)
Definition numPacketsForTime (inDesc : AudioStreamBasicDescription)
           (seconds : Float64) : Float64 :=
  Float64_mul
    (Float64_div (mSampleRate inDesc) (Float64_of_UInt32 (mFramesPerPacket inDesc)))
    seconds.

(** Lines 146-160: the value of [*outBufferSize] before the clamp. *)
Definition unclampedBufferSize (inDesc : AudioStreamBasicDescription)
           (maxPacketSize : Z) (seconds : Float64) : option Z :=
  if negb (mFramesPerPacket inDesc =? 0) then
    Float64_to_UInt32
      (Float64_mul (numPacketsForTime inDesc seconds) (Float64_of_UInt32 maxPacketSize))
  else
    Some (if maxBufferSize >? maxPacketSize then maxBufferSize else maxPacketSize).

(** Lines 166-176: the clamp. *)
Definition clampBufferSize (outBufferSize maxPacketSize : Z) : Z :=
  if (outBufferSize >? maxBufferSize) && (outBufferSize >? maxPacketSize) then
    maxBufferSize
  else if outBufferSize <? minBufferSize then
    minBufferSize
  else
    outBufferSize.

(** [DeriveBufferSize] returns [(outBufferSize, outNumPacketsToRead)].  It
    is undefined ([None]) where the C++ is: a double that does not convert
    to [UInt32], or the division by a zero [maxPacketSize]. *)
Definition DeriveBufferSize (inDesc : AudioStreamBasicDescription)
           (maxPacketSize : Z) (seconds : Float64) : option (Z * Z) :=
  match unclampedBufferSize inDesc maxPacketSize seconds with
  | None => None
  | Some size =>
      let outBufferSize := clampBufferSize size maxPacketSize in
      if maxPacketSize =? 0 then None
      else Some (outBufferSize, outBufferSize / maxPacketSize)
  end.

(** The formula of the specification for the size before the clamp:
    [ceil(sampleRate / framesPerPacket * targetSeconds) * maxPacketSize]. *)
Definition spec_unclampedBufferSize (inDesc : AudioStreamBasicDescription)
           (maxPacketSize : Z) (seconds : Float64) : option Z :=
  option_map (fun packets => packets * maxPacketSize)
             (Float64_ceil (numPacketsForTime inDesc seconds)).

(** Formats used in the examples: only the fields the policy reads are
    filled in. *)
Definition format (sampleRate framesPerPacket bytesPerPacket : Z)
  : AudioStreamBasicDescription :=
  {| mSampleRate := Float64_of_Z sampleRate 0;
     mFormatID := 0; mFormatFlags := 0;
     mBytesPerPacket := bytesPerPacket;
     mFramesPerPacket := framesPerPacket;
     mBytesPerFrame := 0; mChannelsPerFrame := 2;
     mBitsPerChannel := 0; mReserved := 0 |}.

(** The buffer duration [AQPlayerState_InitSizes] asks for: 0.5 s. *)
Definition half_second : Float64 := Float64_of_Z 1 (-1).

End Sizing.

(* ================================================================== *)
(** * The player state, the audio queue and the refill callback *)
(* ================================================================== *)

Module Player.
Import Machine Sizing.

(** Set the number of buffers to use. *)
Definition kNumberBuffers : nat := 3.

Definition OSStatus : Type := Z.
Definition AudioQueueRef : Type := Z.
Definition AudioFileID : Type := Z.

(** An [AudioQueueBufferRef] designates a buffer owned by the audio queue:
    the position of the buffer in [queueBuffers]. *)
Definition AudioQueueBufferRef : Type := nat.

Record AudioStreamPacketDescription : Type := {
  mStartOffset            : Z;
  mVariableFramesInPacket : Z;
  mDataByteSize           : Z
}.

Record AudioQueueBuffer : Type := {
  mAudioDataBytesCapacity : Z;
  mAudioData              : list byte;
  mAudioDataByteSize      : Z
}.

(** [struct AQPlayerState].  [mPacketDescs] is a pointer: [None] is NULL,
    [Some a] an allocated array with contents [a]. *)
Record AQPlayerState : Type := {
  mDataFormat       : AudioStreamBasicDescription;
  mQueue            : AudioQueueRef;
  mBuffers          : list AudioQueueBufferRef;
  mAudioFile        : AudioFileID;
  bufferByteSize    : Z;
  mCurrentPacket    : Z;
  mNumPacketsToRead : Z;
  mPacketDescs      : option (list AudioStreamPacketDescription);
  mIsRunning        : bool
}.

(** What one call of [AudioFileReadPacketData] gives back: the bytes and
    packets actually read (the out values of [ioNumBytes] and
    [ioNumPackets]), the audio data and the packet descriptions. *)
Record ReadResult : Type := {
  rdNumBytes   : Z;
  rdNumPackets : Z;
  rdData       : list byte;
  rdDescs      : list AudioStreamPacketDescription
}.

(** The answer of a file that has no packet left. *)
Definition endOfFile : ReadResult :=
  {| rdNumBytes := 0; rdNumPackets := 0; rdData := []; rdDescs := [] |}.

(** Calls the program makes to the audio file and the audio queue, and
    what it writes for the operator. *)
Inductive Event : Type :=
| EvOpenURL (status : OSStatus)
| EvReadPacketData (inUseCache : bool) (ioNumBytes : Z) (wantDescs : bool)
                   (inStartingPacket : Z) (ioNumPackets : Z)
                   (outBuffer : AudioQueueBufferRef)
| EvNewOutput (status : OSStatus)
| EvSetMagicCookie
| EvAllocateBuffer (inBufferByteSize : Z) (outBuffer : AudioQueueBufferRef)
| EvEnqueueBuffer (inAQ : AudioQueueRef) (inBuffer : AudioQueueBufferRef)
                  (byteSize : Z) (inNumPacketDescs : Z)
                  (inPacketDescs : option (list AudioStreamPacketDescription))
| EvStop (inAQ : AudioQueueRef) (inImmediate : bool)
| EvSetVolume
| EvStart (status : OSStatus)
| EvDispose (inImmediate : bool)
| EvFileClose
| EvStdout (message : string)
| EvStderr (operation : string) (error : OSStatus)
| EvAssertionFailed (expression function : string) (line : Z).

(** The program state together with the two objects it drives.
    - [queueBuffers]: the buffers the audio queue has allocated;
    - [enqueued]: buffers handed to the queue whose completion callback
      has not run yet, oldest first;
    - [pendingReads]: what the audio file answers to the coming reads, in
      order; once the list is used up the file is at its end;
    - [trace]: the events so far, oldest first. *)
Record World : Type := {
  player       : AQPlayerState;
  queueBuffers : list AudioQueueBuffer;
  enqueued     : list AudioQueueBufferRef;
  pendingReads : list ReadResult;
  trace        : list Event
}.

(** ** Field updates *)

Definition set_player (f : AQPlayerState -> AQPlayerState) (w : World) : World :=
  {| player := f (player w); queueBuffers := queueBuffers w;
     enqueued := enqueued w; pendingReads := pendingReads w; trace := trace w |}.

Definition log (e : Event) (w : World) : World :=
  {| player := player w; queueBuffers := queueBuffers w;
     enqueued := enqueued w; pendingReads := pendingReads w;
     trace := trace w ++ [e] |}.

Definition set_mCurrentPacket (v : Z) (s : AQPlayerState) : AQPlayerState :=
  {| mDataFormat := mDataFormat s; mQueue := mQueue s; mBuffers := mBuffers s;
     mAudioFile := mAudioFile s; bufferByteSize := bufferByteSize s;
     mCurrentPacket := v; mNumPacketsToRead := mNumPacketsToRead s;
     mPacketDescs := mPacketDescs s; mIsRunning := mIsRunning s |}.

Definition set_mIsRunning (v : bool) (s : AQPlayerState) : AQPlayerState :=
  {| mDataFormat := mDataFormat s; mQueue := mQueue s; mBuffers := mBuffers s;
     mAudioFile := mAudioFile s; bufferByteSize := bufferByteSize s;
     mCurrentPacket := mCurrentPacket s; mNumPacketsToRead := mNumPacketsToRead s;
     mPacketDescs := mPacketDescs s; mIsRunning := v |}.

Definition set_mPacketDescs (v : option (list AudioStreamPacketDescription))
           (s : AQPlayerState) : AQPlayerState :=
  {| mDataFormat := mDataFormat s; mQueue := mQueue s; mBuffers := mBuffers s;
     mAudioFile := mAudioFile s; bufferByteSize := bufferByteSize s;
     mCurrentPacket := mCurrentPacket s; mNumPacketsToRead := mNumPacketsToRead s;
     mPacketDescs := v; mIsRunning := mIsRunning s |}.

Definition set_mBuffers (v : list AudioQueueBufferRef)
           (s : AQPlayerState) : AQPlayerState :=
  {| mDataFormat := mDataFormat s; mQueue := mQueue s; mBuffers := v;
     mAudioFile := mAudioFile s; bufferByteSize := bufferByteSize s;
     mCurrentPacket := mCurrentPacket s; mNumPacketsToRead := mNumPacketsToRead s;
     mPacketDescs := mPacketDescs s; mIsRunning := mIsRunning s |}.

(** [l[k] = v]; a write outside the array is not modelled. *)
Fixpoint array_set {A : Type} (l : list A) (k : nat) (v : A) : list A :=
  match l, k with
  | [], _ => []
  | _ :: t, O => v :: t
  | h :: t, S k' => h :: array_set t k' v
  end.

Definition update_buffer (buf : AudioQueueBufferRef)
           (f : AudioQueueBuffer -> AudioQueueBuffer) (w : World) : World :=
  {| player := player w;
     queueBuffers :=
       match nth_error (queueBuffers w) buf with
       | Some b => array_set (queueBuffers w) buf (f b)
       | None => queueBuffers w
       end;
     enqueued := enqueued w; pendingReads := pendingReads w; trace := trace w |}.

Definition set_mAudioData (d : list byte) (b : AudioQueueBuffer) : AudioQueueBuffer :=
  {| mAudioDataBytesCapacity := mAudioDataBytesCapacity b;
     mAudioData := d; mAudioDataByteSize := mAudioDataByteSize b |}.

Definition set_mAudioDataByteSize (n : Z) (b : AudioQueueBuffer) : AudioQueueBuffer :=
  {| mAudioDataBytesCapacity := mAudioDataBytesCapacity b;
     mAudioData := mAudioData b; mAudioDataByteSize := n |}.

Definition byteSize_of (w : World) (buf : AudioQueueBufferRef) : Z :=
  match nth_error (queueBuffers w) buf with
  | Some b => mAudioDataByteSize b
  | None => 0
  end.

Definition is_NULL {A : Type} (p : option A) : bool :=
  match p with
  | None => true
  | Some _ => false
  end.

(** ** The services of the audio file and the audio queue *)

(** [AudioFileReadPacketData]: the request is logged, the file's answer is
    taken from [pendingReads], the audio data is written to the buffer and
    the packet descriptions to the array, when there is one. *)
Definition AudioFileReadPacketData (w : World) (inUseCache : bool)
           (ioNumBytes : Z)
           (outPacketDescriptions : option (list AudioStreamPacketDescription))
           (inStartingPacket ioNumPackets : Z)
           (outBuffer : AudioQueueBufferRef) : ReadResult * World :=
  let r := hd endOfFile (pendingReads w) in
  let w1 := log (EvReadPacketData inUseCache ioNumBytes
                   (negb (is_NULL outPacketDescriptions))
                   inStartingPacket ioNumPackets outBuffer) w in
  let w2 := {| player := player w1; queueBuffers := queueBuffers w1;
               enqueued := enqueued w1; pendingReads := tl (pendingReads w1);
               trace := trace w1 |} in
  let w3 := update_buffer outBuffer (set_mAudioData (rdData r)) w2 in
  let w4 := match outPacketDescriptions with
            | Some _ => set_player (set_mPacketDescs (Some (rdDescs r))) w3
            | None => w3
            end in
  (r, w4).

Definition AudioQueueEnqueueBuffer (w : World) (inAQ : AudioQueueRef)
           (inBuffer : AudioQueueBufferRef) (inNumPacketDescs : Z)
           (inPacketDescs : option (list AudioStreamPacketDescription)) : World :=
  let w1 := log (EvEnqueueBuffer inAQ inBuffer (byteSize_of w inBuffer)
                                 inNumPacketDescs inPacketDescs) w in
  {| player := player w1; queueBuffers := queueBuffers w1;
     enqueued := enqueued w1 ++ [inBuffer];
     pendingReads := pendingReads w1; trace := trace w1 |}.

(** [inImmediate = false]: the queue stops once the buffers it holds have
    been played. *)
Definition AudioQueueStop (w : World) (inAQ : AudioQueueRef)
           (inImmediate : bool) : World :=
  log (EvStop inAQ inImmediate) w.

(** The new buffer is appended to the queue's buffers and its reference
    stored in [mBuffers[k]]. *)
Definition AudioQueueAllocateBuffer (w : World) (inBufferByteSize : Z)
           (k : nat) : World :=
  let ref := List.length (queueBuffers w) in
  let b := {| mAudioDataBytesCapacity := inBufferByteSize;
              mAudioData := []; mAudioDataByteSize := 0 |} in
  let w1 := log (EvAllocateBuffer inBufferByteSize ref) w in
  {| player := set_mBuffers (array_set (mBuffers (player w1)) k ref) (player w1);
     queueBuffers := queueBuffers w1 ++ [b];
     enqueued := enqueued w1; pendingReads := pendingReads w1;
     trace := trace w1 |}.

(** ** Audio Queue callback *)

Definition HandleOutputBuffer (w : World) (aq : AudioQueueRef)
           (buf : AudioQueueBufferRef) : World :=
  let data := player w in
  if negb (mIsRunning data) then
    w
  else
    let '(r, w1) :=
      AudioFileReadPacketData w false (bufferByteSize data) (mPacketDescs data)
                              (mCurrentPacket data) (mNumPacketsToRead data) buf in
    let ioNumBytesReadFromFile := rdNumBytes r in
    let ioNumPackets := rdNumPackets r in
    if ioNumPackets >? 0 then
      let w2 := update_buffer buf (set_mAudioDataByteSize ioNumBytesReadFromFile) w1 in
      let descs := mPacketDescs (player w2) in
      let w3 := AudioQueueEnqueueBuffer w2 aq buf
                  (if negb (is_NULL descs) then ioNumPackets else 0) descs in
      set_player (fun s => set_mCurrentPacket
                             (SInt64_add (mCurrentPacket s) ioNumPackets) s) w3
    else
      let w2 := AudioQueueStop w1 aq false in
      set_player (set_mIsRunning false) w2.

(** ** Initialisation steps that the callback depends on *)

Definition isFormatVBR (f : AudioStreamBasicDescription) : bool :=
  (mBytesPerPacket f =? 0) || (mFramesPerPacket f =? 0).

(** [malloc] of the descriptor array is taken to succeed. *)
Definition AQPlayerState_AllocatePacketDescriptionsArray (w : World) : World :=
  let aq := player w in
  if isFormatVBR (mDataFormat aq) then
    set_player (set_mPacketDescs (Some [])) w
  else
    set_player (set_mPacketDescs None) w.

(** The read of [AudioFileReadPacketData] that a running callback issues. *)
Definition readRequest (w : World) (buf : AudioQueueBufferRef) : Event :=
  EvReadPacketData false (bufferByteSize (player w))
                   (negb (is_NULL (mPacketDescs (player w))))
                   (mCurrentPacket (player w)) (mNumPacketsToRead (player w)) buf.

(** The descriptor array is allocated exactly for variable-bit-rate
    formats: what [AQPlayerState_AllocatePacketDescriptionsArray] leaves. *)
Definition descs_follow_format (w : World) : Prop :=
  is_NULL (mPacketDescs (player w)) = negb (isFormatVBR (mDataFormat (player w))).

(** The body of the priming loop for index [k]. *)
Definition primeBuffer (w : World) (k : nat) : World :=
  let w1 := AudioQueueAllocateBuffer w (bufferByteSize (player w)) k in
  HandleOutputBuffer w1 (mQueue (player w1)) (nth k (mBuffers (player w1)) O).

Definition AQPlayerState_AllocateBuffersAndPrime (w : World) : World :=
  let w0 := set_player (set_mCurrentPacket 0) w in
  fold_left primeBuffer (seq 0 kNumberBuffers) w0.

(** ** Sequences of callbacks *)

(** The callback run for each buffer of [bufs] in turn. *)
Definition callbacks (w : World) (aq : AudioQueueRef)
           (bufs : list AudioQueueBufferRef) : World :=
  fold_left (fun w buf => HandleOutputBuffer w aq buf) bufs w.

(** The packets of a list of reads. *)
Definition packetsIn (reads : list ReadResult) : Z :=
  fold_right (fun r n => rdNumPackets r + n) 0 reads.

(** What the cursor needs to count without overflow: the reads to come give
    numbers of packets, and the packets still to be read fit above the
    cursor in an [SInt64]. *)
Definition cursor_fits (w : World) : Prop :=
  0 <= mCurrentPacket (player w)
  /\ mCurrentPacket (player w) + packetsIn (pendingReads w) <= SInt64_MAX
  /\ Forall (fun r => 0 <= rdNumPackets r) (pendingReads w).

(** The events a callback can add: a read, an enqueue, a stop. *)
Definition callbackEvent (e : Event) : bool :=
  match e with
  | EvReadPacketData _ _ _ _ _ _ | EvEnqueueBuffer _ _ _ _ _ | EvStop _ _ => true
  | _ => false
  end.

(** No [AudioQueueStart] among the events. *)
Definition notStarted (events : list Event) : bool :=
  forallb (fun e => match e with EvStart _ => false | _ => true end) events.

(** Nothing written for the operator among the events. *)
Definition silent (events : list Event) : bool :=
  forallb (fun e => match e with
                    | EvStdout _ | EvStderr _ _ | EvAssertionFailed _ _ _ => false
                    | _ => true
                    end) events.

End Player.

(* ================================================================== *)
(** * The session: initialisation, error reporting and [main] *)
(* ================================================================== *)

Module Session.
Import Machine Sizing Player.

(** ** Result codes

    The values are those of AudioFile.h, CoreAudioTypes.h and
    MacTypes.h, the headers [main.cpp] includes. *)

Definition FourCharCode (s : string) : Z :=
  fold_left (fun acc c => acc * 256 + Z.of_nat (nat_of_ascii c))
            (list_ascii_of_string s) 0.

Definition noErr : OSStatus := 0.
Definition kAudioFileUnspecifiedError : OSStatus := FourCharCode "wht?".
Definition kAudioFileUnsupportedFileTypeError : OSStatus := FourCharCode "typ?".
Definition kAudioFileUnsupportedDataFormatError : OSStatus := FourCharCode "fmt?".
Definition kAudioFileUnsupportedPropertyError : OSStatus := FourCharCode "pty?".
Definition kAudioFileBadPropertySizeError : OSStatus := FourCharCode "!siz".
Definition kAudioFileNotOptimizedError : OSStatus := FourCharCode "optm".
Definition kAudioFileInvalidChunkError : OSStatus := FourCharCode "chk?".
Definition kAudioFileDoesNotAllow64BitDataSizeError : OSStatus := FourCharCode "off?".
Definition kAudioFileInvalidPacketOffsetError : OSStatus := FourCharCode "pck?".
Definition kAudioFileInvalidFileError : OSStatus := FourCharCode "dta?".
Definition kAudioFileOperationNotSupportedError : OSStatus := 0x6F703F3F.
Definition kAudioFileNotOpenError : OSStatus := -38.
Definition kAudioFileEndOfFileError : OSStatus := -39.
Definition kAudioFilePositionError : OSStatus := -40.
Definition kAudio_FileNotFoundError : OSStatus := -43.

(** ** How a run of the program goes on or ends *)

Inductive Termination : Type :=
| Exit (code : Z)      (* [exit(code)], or [return code] from [main] *)
| Abort                (* [assert(false)] *)
| Undefined            (* the C++ has no defined behaviour *)
| NeverReturns.        (* the run loop waits for a callback that never comes *)

Inductive Run : Type :=
| Continue (w : World)
| Halt (t : Termination) (w : World).

Definition andThen (r : Run) (k : World -> Run) : Run :=
  match r with
  | Continue w => k w
  | Halt t w => Halt t w
  end.

Notation "w <- r ;; k" := (andThen r (fun w => k))
  (at level 61, r at next level, right associativity).

(** ** Error reporting *)

(** The [switch] of [PrintResultCodes]: the message of a listed code. *)
Definition resultCodeMessage (code : OSStatus) : option string :=
  if code =? kAudioFileUnspecifiedError then Some "File unspecified"%string
  else if code =? kAudioFileUnsupportedFileTypeError then Some "Unsupported file type"%string
  else if code =? kAudioFileUnsupportedDataFormatError then Some "Unsupported data format"%string
  else if code =? kAudioFileUnsupportedPropertyError then Some "Unsupported property"%string
  else if code =? kAudioFileBadPropertySizeError then Some "Bad property size"%string
  else if code =? kAudioFileNotOptimizedError then Some "File not optimized"%string
  else if code =? kAudioFileInvalidChunkError then Some "Invalid chunk"%string
  else if code =? kAudioFileDoesNotAllow64BitDataSizeError
       then Some "File does not allow 64 bit data size"%string
  else if code =? kAudioFileInvalidPacketOffsetError then Some "Invalid packet offset"%string
  else if code =? kAudioFileInvalidFileError then Some "Invalid file"%string
  else if code =? kAudioFileOperationNotSupportedError then Some "Operation not supported"%string
  else if code =? kAudioFileNotOpenError then Some "File not open"%string
  else if code =? kAudioFileEndOfFileError then Some "End of file"%string
  else if code =? kAudioFilePositionError then Some "Position"%string
  else if code =? kAudio_FileNotFoundError then Some "File not found"%string
  else None.

(** A listed code is printed, and [assert(false)] at line 239 (the
    assertion is compiled in) writes its failure message to [stderr] and
    ends the program with [abort]; any other code returns to the caller. *)
Definition PrintResultCodes (code : OSStatus) (w : World) : Run :=
  match resultCodeMessage code with
  | Some message =>
      Halt Abort (log (EvAssertionFailed "false" "PrintResultCodes" 239)
                      (log (EvStdout message) w))
  | None => Continue w
  end.

(** The line written to [stderr] is kept as its two arguments, the
    operation and the error. *)
Definition CheckError (error : OSStatus) (operation : string) (w : World) : Run :=
  if error =? noErr then Continue w
  else Halt (Exit 1) (log (EvStderr operation error) w).

(** ** The environment of one run

    What the operating system answers to the calls of the program. *)
Record Env : Type := {
  envOpenStatus      : OSStatus;        (* AudioFileOpenURL *)
  envAudioFile       : AudioFileID;
  envDataFormat      : AudioStreamBasicDescription;
                                        (* kAudioFilePropertyDataFormat *)
  envMaxPacketSize   : Z;               (* kAudioFilePropertyPacketSizeUpperBound *)
  envNewOutputStatus : OSStatus;        (* AudioQueueNewOutput *)
  envQueue           : AudioQueueRef;
  envHasMagicCookie  : bool;            (* kAudioFilePropertyMagicCookieData *)
  envStartStatus     : OSStatus;        (* AudioQueueStart *)
  envReads           : list ReadResult  (* AudioFileReadPacketData, in order *)
}.

Definition set_file_format_queue
           (file : option AudioFileID)
           (fmt : option AudioStreamBasicDescription)
           (queue : option AudioQueueRef)
           (s : AQPlayerState) : AQPlayerState :=
  {| mDataFormat := match fmt with Some f => f | None => mDataFormat s end;
     mQueue := match queue with Some q => q | None => mQueue s end;
     mBuffers := mBuffers s;
     mAudioFile := match file with Some f => f | None => mAudioFile s end;
     bufferByteSize := bufferByteSize s;
     mCurrentPacket := mCurrentPacket s; mNumPacketsToRead := mNumPacketsToRead s;
     mPacketDescs := mPacketDescs s; mIsRunning := mIsRunning s |}.

Definition set_sizes (size packets : Z) (s : AQPlayerState) : AQPlayerState :=
  {| mDataFormat := mDataFormat s; mQueue := mQueue s; mBuffers := mBuffers s;
     mAudioFile := mAudioFile s; bufferByteSize := size;
     mCurrentPacket := mCurrentPacket s; mNumPacketsToRead := packets;
     mPacketDescs := mPacketDescs s; mIsRunning := mIsRunning s |}.

(** ** Initialisation *)

Definition AQPlayerState_InitAudioFile (env : Env) (w : World) : Run :=
  let result := envOpenStatus env in
  let w1 := log (EvOpenURL result) w in
  let w2 := set_player (set_file_format_queue
                          (if result =? noErr then Some (envAudioFile env) else None)
                          None None) w1 in
  PrintResultCodes result w2.

Definition AQPlayerState_InitBasicDescription (env : Env) (w : World) : World :=
  set_player (set_file_format_queue None (Some (envDataFormat env)) None) w.

Definition AQPlayerState_InitOutputQueue (env : Env) (w : World) : Run :=
  let code := envNewOutputStatus env in
  let w1 := log (EvNewOutput code) w in
  let w2 := set_player (set_file_format_queue None None (Some (envQueue env))) w1 in
  CheckError code "AudioQueueNewOutput " w2.

Definition AQPlayerState_InitSizes (env : Env) (w : World) : Run :=
  match DeriveBufferSize (mDataFormat (player w)) (envMaxPacketSize env) half_second with
  | Some (outBufferSize, outNumPacketsToRead) =>
      Continue (set_player (set_sizes outBufferSize outNumPacketsToRead) w)
  | None => Halt Undefined w
  end.

Definition AQPlayerState_MagicCookie (env : Env) (w : World) : World :=
  if envHasMagicCookie env then log EvSetMagicCookie w else w.

Definition AQPlayerState_SetGain (w : World) : World := log EvSetVolume w.

Definition AQPlayerState_CleanUp (w : World) : World :=
  log EvFileClose (log (EvDispose true) w).

Definition AQPlayerState_Initialize (env : Env) (w : World) : Run :=
  let w := set_player (set_mIsRunning true) w in
  w <- AQPlayerState_InitAudioFile env w ;;
  let w := AQPlayerState_InitBasicDescription env w in
  w <- AQPlayerState_InitOutputQueue env w ;;
  w <- AQPlayerState_InitSizes env w ;;
  let w := AQPlayerState_AllocatePacketDescriptionsArray w in
  let w := AQPlayerState_MagicCookie env w in
  let w := AQPlayerState_AllocateBuffersAndPrime w in
  Continue (AQPlayerState_SetGain w).

(** ** The run loop *)

(** The audio queue gives back the oldest buffer it holds by calling the
    callback registered with [AudioQueueNewOutput]. *)
Definition deliverCallback (w : World) : option World :=
  match enqueued w with
  | [] => None
  | buf :: rest =>
      let w1 := {| player := player w; queueBuffers := queueBuffers w;
                   enqueued := rest; pendingReads := pendingReads w;
                   trace := trace w |} in
      Some (HandleOutputBuffer w1 (mQueue (player w)) buf)
  end.

(** [do CFRunLoopRunInMode(...) while (aq.mIsRunning)]: callbacks are
    delivered until one of them clears [mIsRunning].  (The run loop of a
    player that has stopped only delivers callbacks that return at once;
    they are counted with those of [drainCallbacks].)  [fuel] bounds the
    callbacks delivered; the loop is stuck ([None]) when the player runs and
    the queue holds no buffer. *)
Fixpoint runUntilStopped (fuel : nat) (w : World) : option World :=
  if negb (mIsRunning (player w)) then Some w
  else
    match fuel with
    | O => None
    | S fuel' =>
        match deliverCallback w with
        | None => None
        | Some w' => runUntilStopped fuel' w'
        end
    end.

(** The last second of run loop: the buffers still in the queue finish
    playing and their callbacks run. *)
Fixpoint drainCallbacks (n : nat) (w : World) : World :=
  match n with
  | O => w
  | S n' =>
      match deliverCallback w with
      | None => w
      | Some w' => drainCallbacks n' w'
      end
  end.

(** [memset(&aq, 0, sizeof(AQPlayerState))]. *)
Definition zeroedState : AQPlayerState :=
  {| mDataFormat :=
       {| mSampleRate := S754_zero false; mFormatID := 0; mFormatFlags := 0;
          mBytesPerPacket := 0; mFramesPerPacket := 0; mBytesPerFrame := 0;
          mChannelsPerFrame := 0; mBitsPerChannel := 0; mReserved := 0 |};
     mQueue := 0; mBuffers := repeat O kNumberBuffers; mAudioFile := 0;
     bufferByteSize := 0; mCurrentPacket := 0; mNumPacketsToRead := 0;
     mPacketDescs := None; mIsRunning := false |}.

Definition initialWorld (env : Env) : World :=
  {| player := zeroedState; queueBuffers := []; enqueued := [];
     pendingReads := envReads env; trace := [] |}.

Definition main (env : Env) : Run :=
  w <- AQPlayerState_Initialize env (initialWorld env) ;;
  w <- CheckError (envStartStatus env) "AudioQueueStart"
                  (log (EvStart (envStartStatus env)) w) ;;
  match runUntilStopped (S (List.length (pendingReads w))) w with
  | None => Halt NeverReturns w
  | Some w =>
      let w := drainCallbacks (List.length (enqueued w)) w in
      let w := AQPlayerState_CleanUp w in
      Halt (Exit 0) w
  end.

(** The world a run ends in, and how it ended. *)
Definition finalWorld (r : Run) : World :=
  match r with
  | Continue w => w
  | Halt _ w => w
  end.

Definition termination (r : Run) : option Termination :=
  match r with
  | Continue _ => None
  | Halt t _ => Some t
  end.

End Session.

(* ================================================================== *)
(** * Example runs *)
(* ================================================================== *)

Module Examples.
Import Machine Sizing Player Session.

(** 16-bit stereo PCM at 44.1 kHz: one frame and four bytes per packet. *)
Definition pcm : AudioStreamBasicDescription := format 44100 1 4.

(** AAC at 44.1 kHz: 1024 frames per packet, packets of varying size. *)
Definition aac : AudioStreamBasicDescription := format 44100 1024 0.

(** A read that gives [packets] packets of [bytesPerPacket] bytes. *)
Definition chunk (packets bytesPerPacket : Z) : ReadResult :=
  {| rdNumBytes := packets * bytesPerPacket; rdNumPackets := packets;
     rdData := repeat x00 (Z.to_nat (packets * bytesPerPacket));
     rdDescs := [] |}.

(** A run in which every call of the operating system succeeds. *)
Definition goodEnv (fmt : AudioStreamBasicDescription) (maxPacketSize : Z)
           (reads : list ReadResult) : Env :=
  {| envOpenStatus := noErr; envAudioFile := 1; envDataFormat := fmt;
     envMaxPacketSize := maxPacketSize;
     envNewOutputStatus := noErr; envQueue := 2;
     envHasMagicCookie := false; envStartStatus := noErr;
     envReads := reads |}.

(** The world when [AQPlayerState_Initialize] is over. *)
Definition initialized (env : Env) : World :=
  match AQPlayerState_Initialize env (initialWorld env) with
  | Continue w => w
  | Halt _ w => w
  end.

(** The world when [AQPlayerState_Initialize] is about to prime. *)
Definition readyToPrime (env : Env) : World :=
  let w := set_player (set_mIsRunning true) (initialWorld env) in
  let r := (w <- AQPlayerState_InitAudioFile env w ;;
            w <- AQPlayerState_InitOutputQueue env
                   (AQPlayerState_InitBasicDescription env w) ;;
            AQPlayerState_InitSizes env w) in
  AQPlayerState_MagicCookie env
    (AQPlayerState_AllocatePacketDescriptionsArray (finalWorld r)).

(** PCM files of four, three and one buffer loads of packets. *)
Definition pcmLong : Env := goodEnv pcm 4 [chunk 8 4; chunk 8 4; chunk 8 4; chunk 5 4].
Definition pcmExact : Env := goodEnv pcm 4 [chunk 8 4; chunk 8 4; chunk 8 4].
Definition pcmShort : Env := goodEnv pcm 4 [chunk 3 4].

(** An AAC file. *)
Definition aacLong : Env :=
  goodEnv aac 768 [chunk 21 300; chunk 21 310; chunk 21 290; chunk 9 300].



(** The output queue cannot be created, or cannot be started. *)
Definition noQueue : Env :=
  {| envOpenStatus := noErr; envAudioFile := 1;
     envDataFormat := pcm; envMaxPacketSize := 4;
     envNewOutputStatus := kAudioFileUnsupportedDataFormatError; envQueue := 0;
     envHasMagicCookie := false; envStartStatus := noErr;
     envReads := [chunk 8 4] |}.

Definition noStart : Env :=
  {| envOpenStatus := noErr; envAudioFile := 1;
     envDataFormat := pcm; envMaxPacketSize := 4;
     envNewOutputStatus := noErr; envQueue := 2;
     envHasMagicCookie := false; envStartStatus := -50;
     envReads := [chunk 8 4] |}.

(** The file does not exist. *)
Definition noFile : Env :=
  {| envOpenStatus := kAudio_FileNotFoundError; envAudioFile := 0;
     envDataFormat := mDataFormat zeroedState; envMaxPacketSize := 1;
     envNewOutputStatus := noErr; envQueue := 2;
     envHasMagicCookie := false; envStartStatus := noErr;
     envReads := [] |}.

End Examples.

(* ================================================================== *)
(** * The text of [CheckError] *)
(* ================================================================== *)

Module Diagnostics.
Import Machine Player Session.

(** [OSStatus] is a 32-bit signed integer. *)
Definition is_SInt32 (n : Z) : Prop := - 0x80000000 <= n <= 0x7FFFFFFF.

(** The bytes [CFSwapInt32HostToBig(error)] leaves at [str + 1 .. str + 4]:
    the 32 bits of [error], most significant byte first. *)
Definition bigEndianBytes (error : OSStatus) : list Z :=
  let u := error mod 2 ^ 32 in
  [u / 2 ^ 24; (u / 2 ^ 16) mod 256; (u / 2 ^ 8) mod 256; u mod 256].

(** The value of a byte read through a [char], which is signed. *)
Definition char_of_byte (b : Z) : Z := if b <? 128 then b else b - 256.

(** [isprint] in the "C" locale: space to tilde. *)
Definition isprint (c : Z) : bool := (0x20 <=? c) && (c <=? 0x7E).

Definition ascii_of_byte (b : Z) : ascii := ascii_of_nat (Z.to_nat b).

Fixpoint string_of_bytes (bytes : list Z) : string :=
  match bytes with
  | [] => EmptyString
  | b :: rest => String (ascii_of_byte b) (string_of_bytes rest)
  end.

(** [sprintf(str, "%d", n)]: the decimal digits of [n], most significant
    first, after a minus sign when [n] is negative.  Ten digits are enough
    for an [int]. *)
Definition digit (d : Z) : ascii := ascii_of_nat (48 + Z.to_nat d).

Fixpoint decimalDigits (fuel : nat) (n : Z) : string :=
  match fuel with
  | O => EmptyString
  | S fuel' =>
      if n <? 10 then String (digit n) EmptyString
      else (decimalDigits fuel' (n / 10) ++ String (digit (n mod 10)) EmptyString)%string
  end.

Definition sprintf_d (n : Z) : string :=
  if n <? 0 then String "-" (decimalDigits 10 (- n)) else decimalDigits 10 n.

(** Lines 298-306: the error as a four-character code between quotes when
    its four bytes are printable, as an integer otherwise. *)
Definition errorString (error : OSStatus) : string :=
  let bytes := bigEndianBytes error in
  if forallb (fun b => isprint (char_of_byte b)) bytes then
    String "'" (string_of_bytes bytes ++ String "'" EmptyString)%string
  else
    sprintf_d error.

(** Line 308: [fprintf(stderr, "Error: %s (%s)\n", operation, str)]. *)
Definition stderrLine (operation : string) (error : OSStatus) : string :=
  ("Error: " ++ operation ++ " (" ++ errorString error ++ ")"
     ++ String (ascii_of_nat 10) EmptyString)%string.

(** What the program writes to [stderr]: a line of [CheckError], or the
    message of a failed [assert], which names the expression, the function
    and the line; the layout of that message, and the file name in it, are
    the implementation's. *)
Inductive StderrText : Type :=
| CheckErrorLine (text : string)
| AssertionMessage (expression function : string) (line : Z).

(** What a trace shows on [stderr]. *)
Definition stderrOutput (events : list Event) : list StderrText :=
  flat_map (fun e => match e with
                     | EvStderr operation error =>
                         [CheckErrorLine (stderrLine operation error)]
                     | EvAssertionFailed expression function line =>
                         [AssertionMessage expression function line]
                     | _ => []
                     end) events.

(** The number a string of decimal digits stands for, read after [acc]. *)
Fixpoint decimalValueFrom (acc : Z) (s : string) : Z :=
  match s with
  | EmptyString => acc
  | String c rest => decimalValueFrom (acc * 10 + (Z.of_nat (nat_of_ascii c) - 48)) rest
  end.

Definition signedDecimalValue (s : string) : Z :=
  match s with
  | String "-" rest => - decimalValueFrom 0 rest
  | _ => decimalValueFrom 0 s
  end.

(** A character [isprint] accepts. *)
Definition printable (c : ascii) : Prop :=
  isprint (Z.of_nat (nat_of_ascii c)) = true.

End Diagnostics.

(* ================================================================== *)
(** * What a run shows *)
(* ================================================================== *)

Module Observations.
Import Machine Sizing Player Session.

(** The buffers in the queue are allocated buffers, each there once. *)
Definition queue_wf (w : World) : Prop :=
  NoDup (enqueued w)
  /\ Forall (fun buf => (buf < List.length (queueBuffers w))%nat) (enqueued w).

Definition isStop (e : Event) : bool :=
  match e with EvStop _ _ => true | _ => false end.

Definition isCleanup (e : Event) : bool :=
  match e with EvDispose _ | EvFileClose => true | _ => false end.

Definition isAllocate (e : Event) : bool :=
  match e with EvAllocateBuffer _ _ => true | _ => false end.

(** No event of [events] is in the class [kind]. *)
Definition none (kind : Event -> bool) (events : list Event) : bool :=
  forallb (fun e => negb (kind e)) events.

(** A running player has not stopped the queue; a player that has stopped
    did so with one [AudioQueueStop], not immediate, and no callback has
    read or enqueued since. *)
Definition stoppedOnce (w : World) : Prop :=
  if mIsRunning (player w) then none isStop (trace w) = true
  else exists before after aq,
         trace w = before ++ EvStop aq false :: after
         /\ none isStop before = true
         /\ none callbackEvent after = true.

(** The reads of a trace ask for [numBytes] bytes and [numPackets] packets
    without the cache, and for descriptions when [wantDescs]. *)
Definition readsAskFor (numBytes numPackets : Z) (wantDescs : bool)
           (events : list Event) : bool :=
  forallb (fun e => match e with
                    | EvReadPacketData inUseCache ioNumBytes descs _ ioNumPackets _ =>
                        negb inUseCache && (ioNumBytes =? numBytes)
                        && (ioNumPackets =? numPackets) && Bool.eqb descs wantDescs
                    | _ => true
                    end) events.

(** The reads that give packets, up to the first that gives none. *)
Fixpoint playable (reads : list ReadResult) : list ReadResult :=
  match reads with
  | [] => []
  | r :: rest => if 0 <? rdNumPackets r then r :: playable rest else []
  end.

(** Where reads start that follow one another from packet [from], and
    where the read after them starts. *)
Fixpoint startingPackets (from : Z) (reads : list ReadResult) : list Z :=
  from :: match reads with
          | [] => []
          | r :: rest => startingPackets (from + rdNumPackets r) rest
          end.

(** The packets at which the reads of a trace start. *)
Definition readStarts (events : list Event) : list Z :=
  flat_map (fun e => match e with
                     | EvReadPacketData _ _ _ inStartingPacket _ _ => [inStartingPacket]
                     | _ => []
                     end) events.

Definition isEnqueue (e : Event) : bool :=
  match e with EvEnqueueBuffer _ _ _ _ _ => true | _ => false end.

(** What a player has read of the file whose reads give [reads]: the reads
    [done] gave packets, were made one after the other from packet 0, and
    each was enqueued; a stopped player has made one more read, the first
    that gives no packets. *)
Definition readInOrder (reads : list ReadResult) (v : World) : Prop :=
  cursor_fits v
  /\ exists done,
       Forall (fun r => 0 < rdNumPackets r) done
       /\ mCurrentPacket (player v) = packetsIn done
       /\ List.length (filter isEnqueue (trace v)) = List.length done
       /\ if mIsRunning (player v)
          then reads = done ++ pendingReads v
               /\ readStarts (trace v) ++ [packetsIn done] = startingPackets 0 done
          else playable reads = done
               /\ readStarts (trace v) = startingPackets 0 done.

(** A buffer of [size] bytes that holds no more than it can. *)
Definition within_capacity (size : Z) (b : AudioQueueBuffer) : Prop :=
  mAudioDataBytesCapacity b = size
  /\ 0 <= mAudioDataByteSize b <= size
  /\ Z.of_nat (List.length (mAudioData b)) <= size.

(** A read that keeps to the [size] bytes it may write. *)
Definition read_within (size : Z) (r : ReadResult) : Prop :=
  0 <= rdNumBytes r <= size /\ Z.of_nat (List.length (rdData r)) <= size.

(** How [main] ends, read off the statuses the operating system returns. *)
Definition expectedTermination (env : Env) : Termination :=
  match resultCodeMessage (envOpenStatus env) with
  | Some _ => Abort
  | None =>
      if envNewOutputStatus env =? noErr then
        match DeriveBufferSize (envDataFormat env) (envMaxPacketSize env) half_second with
        | None => Undefined
        | Some _ => if envStartStatus env =? noErr then Exit 0 else Exit 1
        end
      else Exit 1
  end.

End Observations.

Import Machine Sizing Player Session Examples.
Import Diagnostics Observations.

(* ================================================================== *)
(** * Properties of the buffer sizing policy *)
(* ================================================================== *)

Section SizingFacts.

Lemma clampBufferSize_cases (size maxPacketSize : Z) :
  (maxBufferSize < size /\ maxPacketSize < size
     /\ clampBufferSize size maxPacketSize = maxBufferSize)
  \/ (size < minBufferSize /\ clampBufferSize size maxPacketSize = minBufferSize)
  \/ (minBufferSize <= size /\ (size <= maxBufferSize \/ size <= maxPacketSize)
        /\ clampBufferSize size maxPacketSize = size).
Proof.
  unfold clampBufferSize, maxBufferSize, minBufferSize.
  destruct (size >? 327680) eqn:Hmax; destruct (size >? maxPacketSize) eqn:Hpkt;
    destruct (size <? 16384) eqn:Hmin; simpl; lia.
Qed.

Lemma clampBufferSize_lower (size maxPacketSize : Z) :
  minBufferSize <= clampBufferSize size maxPacketSize.
Proof.
  destruct (clampBufferSize_cases size maxPacketSize)
    as [(_ & _ & ->) | [(_ & ->) | (? & _ & ->)]];
    unfold maxBufferSize, minBufferSize in *; lia.
Qed.

(** With packets no larger than the upper bound the clamp keeps the size
    between the two bounds. *)
Lemma clampBufferSize_in_range (size maxPacketSize : Z) :
  maxPacketSize <= maxBufferSize ->
  minBufferSize <= clampBufferSize size maxPacketSize <= maxBufferSize.
Proof.
  intros Hpkt.
  destruct (clampBufferSize_cases size maxPacketSize)
    as [(_ & _ & ->) | [(_ & ->) | (? & ? & ->)]];
    unfold maxBufferSize, minBufferSize in *; lia.
Qed.

(** Where [DeriveBufferSize] is defined and what it returns there. *)
Lemma DeriveBufferSize_defined inDesc maxPacketSize seconds size :
  unclampedBufferSize inDesc maxPacketSize seconds = Some size ->
  maxPacketSize <> 0 ->
  DeriveBufferSize inDesc maxPacketSize seconds =
    Some (clampBufferSize size maxPacketSize,
          clampBufferSize size maxPacketSize / maxPacketSize).
Proof.
  intros Hsize Hpkt. unfold DeriveBufferSize. rewrite Hsize.
  destruct (Z.eqb_spec maxPacketSize 0); [contradiction | reflexivity].
Qed.

Lemma DeriveBufferSize_inv inDesc maxPacketSize seconds outBufferSize outNumPacketsToRead :
  DeriveBufferSize inDesc maxPacketSize seconds = Some (outBufferSize, outNumPacketsToRead) ->
  exists size,
    unclampedBufferSize inDesc maxPacketSize seconds = Some size
    /\ maxPacketSize <> 0
    /\ outBufferSize = clampBufferSize size maxPacketSize
    /\ outNumPacketsToRead = outBufferSize / maxPacketSize.
Proof.
  unfold DeriveBufferSize.
  destruct (unclampedBufferSize inDesc maxPacketSize seconds) as [size|]; [|discriminate].
  destruct (Z.eqb_spec maxPacketSize 0); [discriminate|].
  intros [= <- <-]. exists size. auto.
Qed.

(** A format without a fixed number of frames per packet is sized for any
    non-zero packet size. *)
Lemma DeriveBufferSize_variable_defined inDesc maxPacketSize seconds :
  mFramesPerPacket inDesc = 0 ->
  maxPacketSize <> 0 ->
  exists outBufferSize outNumPacketsToRead,
    DeriveBufferSize inDesc maxPacketSize seconds
    = Some (outBufferSize, outNumPacketsToRead).
Proof.
  intros Hfpp Hpkt.
  eexists _, _. apply DeriveBufferSize_defined; [|assumption].
  unfold unclampedBufferSize. rewrite Hfpp. reflexivity.
Qed.

(** The packet count is the quotient of the two sizes; it is at least one
    exactly when one packet of the largest size fits the buffer. *)
Lemma outNumPacketsToRead_positive_iff inDesc maxPacketSize seconds
      outBufferSize outNumPacketsToRead :
  0 < maxPacketSize ->
  DeriveBufferSize inDesc maxPacketSize seconds = Some (outBufferSize, outNumPacketsToRead) ->
  outNumPacketsToRead = outBufferSize / maxPacketSize
  /\ (1 <= outNumPacketsToRead <-> maxPacketSize <= outBufferSize).
Proof.
  intros Hpos H. apply DeriveBufferSize_inv in H as (size & _ & _ & Hb & Hn).
  split; [assumption|]. subst outNumPacketsToRead.
  pose proof (clampBufferSize_lower size maxPacketSize) as Hlow.
  rewrite <- Hb in Hlow. unfold minBufferSize in Hlow.
  split; intros H.
  - destruct (Z_lt_le_dec outBufferSize maxPacketSize) as [Hlt|]; [|assumption].
    rewrite Z.div_small in H; lia.
  - assert (0 < outBufferSize / maxPacketSize); [|lia].
    apply Z.div_str_pos; lia.
Qed.

(** The branch for formats without a fixed number of frames per packet
    always leaves room for one packet of the largest size. *)
Lemma DeriveBufferSize_variable_fits_one_packet inDesc maxPacketSize seconds
      outBufferSize outNumPacketsToRead :
  mFramesPerPacket inDesc = 0 ->
  0 < maxPacketSize ->
  DeriveBufferSize inDesc maxPacketSize seconds = Some (outBufferSize, outNumPacketsToRead) ->
  maxPacketSize <= outBufferSize /\ 1 <= outNumPacketsToRead.
Proof.
  intros Hfpp Hpos H.
  destruct (outNumPacketsToRead_positive_iff _ _ _ _ _ Hpos H) as [_ Hiff].
  assert (maxPacketSize <= outBufferSize) as Hfits; [|split; [exact Hfits | apply Hiff, Hfits]].
  apply DeriveBufferSize_inv in H as (size & Hsize & _ & -> & _).
  unfold unclampedBufferSize in Hsize. rewrite Hfpp in Hsize. simpl in Hsize.
  injection Hsize as <-.
  unfold clampBufferSize, maxBufferSize, minBufferSize.
  destruct (Z.gtb_spec 327680 maxPacketSize).
  - rewrite Z.gtb_ltb, Z.ltb_irrefl. simpl. lia.
  - rewrite (Z.gtb_ltb maxPacketSize maxPacketSize), Z.ltb_irrefl, andb_false_r.
    destruct (Z.ltb_spec maxPacketSize 16384); lia.
Qed.

(** With packets no larger than the upper bound, a fixed-rate format gets a
    buffer between the two bounds. *)
Lemma DeriveBufferSize_in_range inDesc maxPacketSize seconds
      outBufferSize outNumPacketsToRead :
  maxPacketSize <= maxBufferSize ->
  DeriveBufferSize inDesc maxPacketSize seconds = Some (outBufferSize, outNumPacketsToRead) ->
  minBufferSize <= outBufferSize <= maxBufferSize.
Proof.
  intros Hpkt H. apply DeriveBufferSize_inv in H as (size & _ & _ & -> & _).
  apply clampBufferSize_in_range. exact Hpkt.
Qed.

(** C3, evaluated: a format with 1024 frames per packet at 44.1 kHz whose
    largest packet has 400000 bytes is accepted by [DeriveBufferSize]; the
    size computed for half a second exceeds both the upper bound and the
    packet size, so it is cut down to the upper bound 0x50000, below one
    packet, and the number of packets to read per buffer is 0. *)
Theorem DeriveBufferSize_returns_zero_packets :
  DeriveBufferSize (format 44100 1024 0) 400000 half_second = Some (0x50000, 0).
Proof. vm_compute. reflexivity. Qed.

(** C5, evaluated: for the same fixed-frames-per-packet format the largest
    packet (400000 bytes) exceeds the upper bound, and the buffer size
    returned is the upper bound itself: it is smaller than one packet. *)
Theorem DeriveBufferSize_buffer_below_one_packet :
  mFramesPerPacket (format 44100 1024 0) <> 0
  /\ maxBufferSize < 400000
  /\ exists outBufferSize outNumPacketsToRead,
       DeriveBufferSize (format 44100 1024 0) 400000 half_second
       = Some (outBufferSize, outNumPacketsToRead)
       /\ outBufferSize = maxBufferSize
       /\ outBufferSize < 400000.
Proof.
  split; [simpl; lia|]. split; [unfold maxBufferSize; lia|].
  exists 0x50000, 0. repeat split.
Qed.

(** C10: whatever the format, the packet size and the duration, a buffer
    size returned by [DeriveBufferSize] is at least [minBufferSize] =
    0x4000. *)
Theorem DeriveBufferSize_at_least_minBufferSize
        inDesc maxPacketSize seconds outBufferSize outNumPacketsToRead :
  DeriveBufferSize inDesc maxPacketSize seconds = Some (outBufferSize, outNumPacketsToRead) ->
  0x4000 <= outBufferSize.
Proof.
  intros H. apply DeriveBufferSize_inv in H as (size & _ & _ & -> & _).
  apply (clampBufferSize_lower size maxPacketSize).
Qed.

Lemma DeriveBufferSize_at_least_minBufferSize_witness :
  DeriveBufferSize (format 8000 0 0) 64 half_second = Some (0x50000, 0x1400)
  /\ DeriveBufferSize (format 8000 160 33) 33 half_second = Some (0x4000, 496)
  /\ 0x4000 <= 0x50000 /\ 0x4000 <= 0x4000.
Proof.
  split; [vm_compute; reflexivity|].
  split; [vm_compute; reflexivity|].
  split.
  - apply (DeriveBufferSize_at_least_minBufferSize
             (format 8000 0 0) 64 half_second 0x50000 0x1400).
    vm_compute. reflexivity.
  - apply (DeriveBufferSize_at_least_minBufferSize
             (format 8000 160 33) 33 half_second 0x4000 496).
    vm_compute. reflexivity.
Defined.

End SizingFacts.

(* ================================================================== *)
(** * The size before the clamp *)
(* ================================================================== *)

Section UnclampedSize.

Lemma Qpower_2_pos (p : positive) : (Qpower 2 (Zpos p) == inject_Z (Zpos (2 ^ p)))%Q.
Proof.
  rewrite Pos2Z.inj_pow. rewrite Zpower_Qpower by lia. reflexivity.
Qed.

(** Shifting the mantissa by the exponent is the integer part of the
    value [m * 2^e]. *)
Lemma shiftl_is_Qfloor (m : positive) (e : Z) :
  Z.shiftl (Zpos m) e = Qfloor (inject_Z (Zpos m) * Qpower 2 e).
Proof.
  destruct e as [|p|p].
  - rewrite Z.shiftl_0_r.
    rewrite (Qfloor_comp _ (inject_Z (Zpos m))) by (simpl Qpower; ring).
    symmetry. apply Qfloor_Z.
  - rewrite Z.shiftl_mul_pow2 by lia.
    rewrite (Qfloor_comp _ (inject_Z (Zpos m * 2 ^ Zpos p))).
    + symmetry. apply Qfloor_Z.
    + rewrite Qpower_2_pos, inject_Z_mult, Pos2Z.inj_pow. reflexivity.
  - change (Z.shiftl (Zpos m) (Zneg p)) with (Z.shiftr (Zpos m) (Zpos p)).
    rewrite Z.shiftr_div_pow2 by lia.
    rewrite (Qfloor_comp _ (Zpos m # 2 ^ p)).
    + unfold Qfloor. rewrite Pos2Z.inj_pow. reflexivity.
    + change (Qpower 2 (Zneg p)) with (/ Qpower 2 (Zpos p))%Q.
      rewrite Qpower_2_pos. rewrite (Qmake_Qdiv (Zpos m) (2 ^ p)). reflexivity.
Qed.

Lemma finite_value_positive (m : positive) (e : Z) :
  (0 < inject_Z (Zpos m) * Qpower 2 e)%Q.
Proof.
  apply Qmult_lt_0_compat.
  - change 0%Q with (inject_Z 0). rewrite <- Zlt_Qlt. lia.
  - apply Qpower_0_lt. reflexivity.
Qed.

(** The conversion to [UInt32] of a double whose value [v] lies in
    [[0, 2^32)] is defined and yields the integer part of [v]. *)
Lemma Float64_to_UInt32_floor (x : Float64) (v : Q) :
  Float64_value x = Some v ->
  (0 <= v)%Q -> (v < inject_Z (2 ^ 32))%Q ->
  Float64_to_UInt32 x = Some (Qfloor v).
Proof.
  destruct x as [s|s| |s m e]; simpl; try discriminate.
  - intros [= <-] _ _. reflexivity.
  - intros [= <-] Hnonneg Hlt.
    pose proof (finite_value_positive m e) as Hpos.
    destruct s.
    + exfalso. apply (Qlt_not_le _ _ Hpos).
      apply Qopp_le_compat in Hnonneg. rewrite Qopp_involutive in Hnonneg.
      exact Hnonneg.
    + rewrite shiftl_is_Qfloor.
      set (v := (inject_Z (Zpos m) * Qpower 2 e)%Q) in *.
      assert (Qfloor v < 2 ^ 32) as Hfl.
      { rewrite Zlt_Qlt. eapply Qle_lt_trans; [apply Qfloor_le | exact Hlt]. }
      destruct (Z.leb_spec (Qfloor v) UInt32_MAX) as [|Hgt];
        [reflexivity | unfold UInt32_MAX in Hgt; lia].
Qed.

(** C4, as the code has it: for a format with a fixed, non-zero number of
    frames per packet, the size before the clamp is the double-precision
    product [(sampleRate / framesPerPacket * seconds) * maxPacketSize]
    cut to its integer part; the packet count is not rounded up before
    the multiplication.  [v] is the value of that product. *)
Theorem unclampedBufferSize_is_truncated_product
        inDesc maxPacketSize seconds (v : Q) :
  mFramesPerPacket inDesc <> 0 ->
  Float64_value (Float64_mul (numPacketsForTime inDesc seconds)
                             (Float64_of_UInt32 maxPacketSize)) = Some v ->
  (0 <= v)%Q -> (v < inject_Z (2 ^ 32))%Q ->
  unclampedBufferSize inDesc maxPacketSize seconds = Some (Qfloor v).
Proof.
  intros Hfpp Hv Hnonneg Hlt. unfold unclampedBufferSize.
  destruct (Z.eqb_spec (mFramesPerPacket inDesc) 0) as [|_]; [contradiction|].
  simpl negb. cbv iota. apply Float64_to_UInt32_floor; assumption.
Qed.

(** 44.1 kHz, 1024 frames per packet, half a second, packets of at most
    1000 bytes: the product is 21533.203125. *)
Lemma unclampedBufferSize_is_truncated_product_witness :
  Float64_value (Float64_mul (numPacketsForTime (format 44100 1024 0) half_second)
                             (Float64_of_UInt32 1000))
  = Some (5919001804800000 # 274877906944)
  /\ unclampedBufferSize (format 44100 1024 0) 1000 half_second = Some 21533.
Proof.
  split; [vm_compute; reflexivity|].
  apply (unclampedBufferSize_is_truncated_product
           (format 44100 1024 0) 1000 half_second
           (5919001804800000 # 274877906944)).
  - simpl. lia.
  - vm_compute. reflexivity.
  - vm_compute. discriminate.
  - vm_compute. reflexivity.
Defined.

(** C4 as the specification states it fails: at 44.1 kHz with 1024 frames
    per packet and packets of at most 1000 bytes the code computes 21533
    bytes for half a second, where
    [ceil(sampleRate / framesPerPacket * seconds) * maxPacketSize]
    is [22 * 1000]. *)
Lemma unclampedBufferSize_not_ceiling_formula :
  mFramesPerPacket (format 44100 1024 0) <> 0
  /\ unclampedBufferSize (format 44100 1024 0) 1000 half_second = Some 21533
  /\ spec_unclampedBufferSize (format 44100 1024 0) 1000 half_second = Some 22000
  /\ unclampedBufferSize (format 44100 1024 0) 1000 half_second
     <> spec_unclampedBufferSize (format 44100 1024 0) 1000 half_second.
Proof.
  split; [simpl; lia|].
  split; [vm_compute; reflexivity|].
  split; [vm_compute; reflexivity|].
  vm_compute. discriminate.
Qed.

End UnclampedSize.

(* ================================================================== *)
(** * Properties of the refill callback *)
(* ================================================================== *)

Section CallbackFacts.

Lemma SInt64_wrap_in_range (n : Z) : is_SInt64 n -> SInt64_wrap n = n.
Proof.
  unfold is_SInt64, SInt64_MIN, SInt64_MAX, SInt64_wrap. intros H.
  rewrite Z.mod_small; lia.
Qed.

Lemma nth_error_array_set {A : Type} (l : list A) (k : nat) (v : A) :
  (k < List.length l)%nat -> nth_error (array_set l k v) k = Some v.
Proof.
  revert k. induction l as [|h t IH]; intros [|k] Hk; simpl in *; try lia.
  - reflexivity.
  - apply IH. lia.
Qed.

Lemma length_array_set {A : Type} (l : list A) (k : nat) (v : A) :
  List.length (array_set l k v) = List.length l.
Proof.
  revert k. induction l as [|h t IH]; intros [|k]; simpl; auto.
Qed.

Lemma AllocatePacketDescriptionsArray_descs (w : World) :
  descs_follow_format (AQPlayerState_AllocatePacketDescriptionsArray w).
Proof.
  unfold descs_follow_format, AQPlayerState_AllocatePacketDescriptionsArray.
  destruct (isFormatVBR (mDataFormat (player w))) eqn:E; simpl; rewrite E; reflexivity.
Qed.

Lemma byteSize_of_update (w : World) (buf : AudioQueueBufferRef) (n : Z) :
  (buf < List.length (queueBuffers w))%nat ->
  byteSize_of (update_buffer buf (set_mAudioDataByteSize n) w) buf = n.
Proof.
  intros Hbuf. unfold byteSize_of, update_buffer. simpl.
  destruct (nth_error (queueBuffers w) buf) as [b|] eqn:Hb;
    [|apply nth_error_None in Hb; lia].
  rewrite nth_error_array_set by assumption. reflexivity.
Qed.

Lemma length_update_buffer (w : World) (buf : AudioQueueBufferRef) f :
  List.length (queueBuffers (update_buffer buf f w)) = List.length (queueBuffers w).
Proof.
  unfold update_buffer. simpl.
  destruct (nth_error (queueBuffers w) buf); [apply length_array_set | reflexivity].
Qed.

(** The world a running callback leaves when the read gave packets. *)
Lemma HandleOutputBuffer_refill (w : World) (aq : AudioQueueRef)
      (buf : AudioQueueBufferRef) :
  let r := hd endOfFile (pendingReads w) in
  let filled := update_buffer buf (set_mAudioDataByteSize (rdNumBytes r))
                  (update_buffer buf (set_mAudioData (rdData r)) w) in
  let data := match mPacketDescs (player w) with
              | Some _ => set_mPacketDescs (Some (rdDescs r)) (player w)
              | None => player w
              end in
  mIsRunning (player w) = true ->
  0 < rdNumPackets r ->
  HandleOutputBuffer w aq buf =
    {| player := set_mCurrentPacket
                   (SInt64_add (mCurrentPacket (player w)) (rdNumPackets r)) data;
       queueBuffers := queueBuffers filled;
       enqueued := enqueued w ++ [buf];
       pendingReads := tl (pendingReads w);
       trace := trace w ++ [readRequest w buf;
                            EvEnqueueBuffer aq buf (byteSize_of filled buf)
                              (if negb (is_NULL (mPacketDescs data))
                               then rdNumPackets r else 0)
                              (mPacketDescs data)] |}.
Proof.
  intros r filled data Hrun Hpos.
  unfold HandleOutputBuffer, AudioFileReadPacketData.
  rewrite Hrun. fold r. simpl negb. cbv iota.
  destruct (Z.gtb_spec (rdNumPackets r) 0) as [_|]; [|lia].
  subst filled data. unfold readRequest, AudioQueueEnqueueBuffer.
  destruct (mPacketDescs (player w)) as [a|] eqn:Hd;
    unfold set_player, byteSize_of, update_buffer; simpl;
    rewrite <- app_assoc; try rewrite Hd; reflexivity.
Qed.

(** The world a running callback leaves when the file had nothing left. *)
Lemma HandleOutputBuffer_stop (w : World) (aq : AudioQueueRef)
      (buf : AudioQueueBufferRef) :
  let r := hd endOfFile (pendingReads w) in
  let data := match mPacketDescs (player w) with
              | Some _ => set_mPacketDescs (Some (rdDescs r)) (player w)
              | None => player w
              end in
  mIsRunning (player w) = true ->
  rdNumPackets r <= 0 ->
  HandleOutputBuffer w aq buf =
    {| player := set_mIsRunning false data;
       queueBuffers := queueBuffers (update_buffer buf (set_mAudioData (rdData r)) w);
       enqueued := enqueued w;
       pendingReads := tl (pendingReads w);
       trace := trace w ++ [readRequest w buf; EvStop aq false] |}.
Proof.
  intros r data Hrun Hzero.
  unfold HandleOutputBuffer, AudioFileReadPacketData.
  rewrite Hrun. fold r. simpl negb. cbv iota.
  destruct (Z.gtb_spec (rdNumPackets r) 0) as [|_]; [lia|].
  subst data. unfold readRequest, AudioQueueStop.
  destruct (mPacketDescs (player w)) as [a|] eqn:Hd;
    unfold set_player, update_buffer; simpl;
    rewrite <- app_assoc; reflexivity.
Qed.

Lemma HandleOutputBuffer_stopped_id (w : World) (aq : AudioQueueRef)
      (buf : AudioQueueBufferRef) :
  mIsRunning (player w) = false -> HandleOutputBuffer w aq buf = w.
Proof.
  intros Hstopped. unfold HandleOutputBuffer. rewrite Hstopped. reflexivity.
Qed.

(** The callback keeps the descriptor array allocated or not, as it found
    it, and does not touch the format. *)
Lemma HandleOutputBuffer_keeps_descs (w : World) (aq : AudioQueueRef)
      (buf : AudioQueueBufferRef) :
  descs_follow_format w -> descs_follow_format (HandleOutputBuffer w aq buf).
Proof.
  unfold descs_follow_format. intros Hdescs.
  destruct (mIsRunning (player w)) eqn:Hrun.
  2:{ rewrite (HandleOutputBuffer_stopped_id w aq buf Hrun). exact Hdescs. }
  destruct (Z_lt_le_dec 0 (rdNumPackets (hd endOfFile (pendingReads w))))
    as [Hpos|Hzero].
  - rewrite (HandleOutputBuffer_refill w aq buf Hrun Hpos). cbn [player].
    destruct (mPacketDescs (player w)) eqn:Hd; simpl; rewrite ?Hd; exact Hdescs.
  - rewrite (HandleOutputBuffer_stop w aq buf Hrun Hzero). cbn [player].
    destruct (mPacketDescs (player w)) eqn:Hd; simpl; rewrite ?Hd; exact Hdescs.
Qed.

(** C8: when [mIsRunning] is false the callback returns the world as it
    found it: nothing is read from the file, nothing is handed to the
    queue, and neither the player state nor any buffer changes. *)
Theorem HandleOutputBuffer_not_running (w : World) (aq : AudioQueueRef)
        (buf : AudioQueueBufferRef) :
  mIsRunning (player w) = false ->
  HandleOutputBuffer w aq buf = w
  /\ pendingReads (HandleOutputBuffer w aq buf) = pendingReads w
  /\ trace (HandleOutputBuffer w aq buf) = trace w
  /\ enqueued (HandleOutputBuffer w aq buf) = enqueued w
  /\ player (HandleOutputBuffer w aq buf) = player w
  /\ queueBuffers (HandleOutputBuffer w aq buf) = queueBuffers w.
Proof.
  intros Hstopped.
  rewrite (HandleOutputBuffer_stopped_id w aq buf Hstopped).
  repeat split.
Qed.

(** C2: when a running callback reads zero packets, the only call made to
    the queue is [AudioQueueStop] with [inImmediate = false] (stop once the
    queued buffers have played), [mIsRunning] becomes false, nothing is
    enqueued and the cursor stays; nothing is written for the operator and
    the callback returns normally. *)
Theorem HandleOutputBuffer_end_of_stream (w : World) (aq : AudioQueueRef)
        (buf : AudioQueueBufferRef) :
  mIsRunning (player w) = true ->
  rdNumPackets (hd endOfFile (pendingReads w)) = 0 ->
  trace (HandleOutputBuffer w aq buf)
    = trace w ++ [readRequest w buf; EvStop aq false]
  /\ mIsRunning (player (HandleOutputBuffer w aq buf)) = false
  /\ enqueued (HandleOutputBuffer w aq buf) = enqueued w
  /\ mCurrentPacket (player (HandleOutputBuffer w aq buf)) = mCurrentPacket (player w).
Proof.
  intros Hrun Hzero.
  rewrite (HandleOutputBuffer_stop w aq buf Hrun) by lia. simpl.
  repeat split. destruct (mPacketDescs (player w)); reflexivity.
Qed.

(** C1: when a running callback reads more than zero packets into an
    allocated buffer, the buffer's [mAudioDataByteSize] is the number of
    bytes read; the buffer is enqueued with no descriptions (count 0, NULL)
    for a constant-bit-rate format and with the packet count and the
    descriptor array for a variable-bit-rate one; and [mCurrentPacket]
    grows by the number of packets read. *)
Theorem HandleOutputBuffer_packets_read (w : World) (aq : AudioQueueRef)
        (buf : AudioQueueBufferRef) :
  let r := hd endOfFile (pendingReads w) in
  let vbr := isFormatVBR (mDataFormat (player w)) in
  mIsRunning (player w) = true ->
  0 < rdNumPackets r ->
  (buf < List.length (queueBuffers w))%nat ->
  descs_follow_format w ->
  is_SInt64 (mCurrentPacket (player w) + rdNumPackets r) ->
  byteSize_of (HandleOutputBuffer w aq buf) buf = rdNumBytes r
  /\ trace (HandleOutputBuffer w aq buf)
     = trace w ++ [readRequest w buf;
                   EvEnqueueBuffer aq buf (rdNumBytes r)
                     (if vbr then rdNumPackets r else 0)
                     (if vbr then Some (rdDescs r) else None)]
  /\ enqueued (HandleOutputBuffer w aq buf) = enqueued w ++ [buf]
  /\ mCurrentPacket (player (HandleOutputBuffer w aq buf))
     = mCurrentPacket (player w) + rdNumPackets r.
Proof.
  intros r vbr Hrun Hpos Hbuf Hdescs Hfit.
  rewrite (HandleOutputBuffer_refill w aq buf Hrun Hpos). fold r.
  unfold descs_follow_format in Hdescs. fold vbr in Hdescs.
  assert (byteSize_of
            (update_buffer buf (set_mAudioDataByteSize (rdNumBytes r))
               (update_buffer buf (set_mAudioData (rdData r)) w)) buf
          = rdNumBytes r) as Hsize.
  { apply byteSize_of_update. rewrite length_update_buffer. assumption. }
  rewrite Hsize.
  split; [exact Hsize|].
  split; [|split; [reflexivity|]].
  - destruct (mPacketDescs (player w)) as [a|] eqn:Hd; simpl in Hdescs;
      destruct vbr; try discriminate; simpl; rewrite ?Hd; reflexivity.
  - destruct (mPacketDescs (player w)); simpl;
      unfold SInt64_add; apply SInt64_wrap_in_range; assumption.
Qed.

(** After priming from a file of three packets the player has stopped; a
    further callback changes nothing. *)
Lemma HandleOutputBuffer_not_running_witness :
  mIsRunning (player (initialized pcmShort)) = false
  /\ HandleOutputBuffer (initialized pcmShort) 2 0%nat = initialized pcmShort.
Proof.
  split; [vm_compute; reflexivity|].
  apply (HandleOutputBuffer_not_running (initialized pcmShort) 2 0%nat).
  vm_compute. reflexivity.
Defined.

(** After priming from a file of exactly three buffer loads the player runs
    and the file is at its end: the next callback stops the queue. *)
Lemma HandleOutputBuffer_end_of_stream_witness :
  mIsRunning (player (initialized pcmExact)) = true
  /\ pendingReads (initialized pcmExact) = []
  /\ trace (HandleOutputBuffer (initialized pcmExact) 2 0%nat)
     = trace (initialized pcmExact)
         ++ [EvReadPacketData false 88200 false 24 22050 0%nat; EvStop 2 false]
  /\ mIsRunning (player (HandleOutputBuffer (initialized pcmExact) 2 0%nat)) = false.
Proof.
  split; [vm_compute; reflexivity|]. split; [vm_compute; reflexivity|].
  destruct (HandleOutputBuffer_end_of_stream (initialized pcmExact) 2 0%nat)
    as (Ht & Hr & _).
  - vm_compute. reflexivity.
  - vm_compute. reflexivity.
  - split; [|exact Hr]. rewrite Ht. vm_compute. reflexivity.
Defined.

(** A constant-bit-rate file and a variable-bit-rate file with a fourth
    buffer load: the callback on buffer 0 enqueues it again, without
    descriptions for PCM, with nine descriptions for AAC. *)
Lemma HandleOutputBuffer_packets_read_witness :
  (trace (HandleOutputBuffer (initialized pcmLong) 2 0%nat)
   = trace (initialized pcmLong)
       ++ [EvReadPacketData false 88200 false 24 22050 0%nat;
           EvEnqueueBuffer 2 0%nat 20 0 None]
   /\ mCurrentPacket (player (HandleOutputBuffer (initialized pcmLong) 2 0%nat)) = 29)
  /\ (trace (HandleOutputBuffer (initialized aacLong) 2 0%nat)
      = trace (initialized aacLong)
          ++ [EvReadPacketData false 16537 true 63 21 0%nat;
              EvEnqueueBuffer 2 0%nat 2700 9 (Some [])]
      /\ mCurrentPacket (player (HandleOutputBuffer (initialized aacLong) 2 0%nat)) = 72).
Proof.
  split.
  - destruct (HandleOutputBuffer_packets_read (initialized pcmLong) 2 0%nat)
      as (_ & Ht & _ & Hc).
    + vm_compute. reflexivity.
    + vm_compute. reflexivity.
    + vm_compute. lia.
    + vm_compute. reflexivity.
    + vm_compute. split; discriminate.
    + split; [rewrite Ht | rewrite Hc]; vm_compute; reflexivity.
  - destruct (HandleOutputBuffer_packets_read (initialized aacLong) 2 0%nat)
      as (_ & Ht & _ & Hc).
    + vm_compute. reflexivity.
    + vm_compute. reflexivity.
    + vm_compute. lia.
    + vm_compute. reflexivity.
    + vm_compute. split; discriminate.
    + split; [rewrite Ht | rewrite Hc]; vm_compute; reflexivity.
Defined.

End CallbackFacts.

(* ================================================================== *)
(** * The packet cursor over a session *)
(* ================================================================== *)

Section CursorFacts.

Lemma packetsIn_app (a b : list ReadResult) :
  packetsIn (a ++ b) = packetsIn a + packetsIn b.
Proof. induction a; simpl; lia. Qed.

Lemma packetsIn_nonneg (rs : list ReadResult) :
  Forall (fun r => 0 <= rdNumPackets r) rs -> 0 <= packetsIn rs.
Proof. induction 1; simpl; lia. Qed.

(** One callback consumes at most one read and moves the cursor by the
    packets of what it consumed. *)
Lemma HandleOutputBuffer_cursor (w : World) (aq : AudioQueueRef)
      (buf : AudioQueueBufferRef) :
  cursor_fits w ->
  exists consumed,
    pendingReads w = consumed ++ pendingReads (HandleOutputBuffer w aq buf)
    /\ mCurrentPacket (player (HandleOutputBuffer w aq buf))
       = mCurrentPacket (player w) + packetsIn consumed
    /\ cursor_fits (HandleOutputBuffer w aq buf).
Proof.
  intros (Hlow & Hhigh & Hreads).
  destruct (mIsRunning (player w)) eqn:Hrun.
  2:{ rewrite (HandleOutputBuffer_stopped_id w aq buf Hrun).
      exists []. simpl. repeat split; auto; lia. }
  pose proof (packetsIn_nonneg _ Hreads) as Hsum.
  destruct (pendingReads w) as [|r rest] eqn:Hpending.
  - rewrite (HandleOutputBuffer_stop w aq buf Hrun) by (rewrite Hpending; simpl; lia).
    exists []. simpl. rewrite Hpending. simpl.
    destruct (mPacketDescs (player w)); simpl; repeat split; auto; simpl; lia.
  - inversion Hreads as [|? ? Hr Hrest]; subst. simpl in Hhigh, Hsum.
    pose proof (packetsIn_nonneg _ Hrest) as Hsum'.
    exists [r]. simpl.
    destruct (Z_lt_le_dec 0 (rdNumPackets r)) as [Hpos|Hzero].
    + rewrite (HandleOutputBuffer_refill w aq buf Hrun)
        by (rewrite Hpending; exact Hpos).
      rewrite Hpending. simpl.
      assert (SInt64_add (mCurrentPacket (player w)) (rdNumPackets r)
              = mCurrentPacket (player w) + rdNumPackets r) as Hadd.
      { unfold SInt64_add. apply SInt64_wrap_in_range.
        unfold is_SInt64, SInt64_MIN, SInt64_MAX in *. lia. }
      destruct (mPacketDescs (player w)); simpl; rewrite Hadd;
        repeat split; auto; simpl; lia.
    + rewrite (HandleOutputBuffer_stop w aq buf Hrun)
        by (rewrite Hpending; exact Hzero).
      rewrite Hpending. simpl.
      destruct (mPacketDescs (player w)); simpl;
        repeat split; auto; simpl; lia.
Qed.

Lemma callbacks_cursor (bufs : list AudioQueueBufferRef) (w : World)
      (aq : AudioQueueRef) :
  cursor_fits w ->
  exists consumed,
    pendingReads w = consumed ++ pendingReads (callbacks w aq bufs)
    /\ mCurrentPacket (player (callbacks w aq bufs))
       = mCurrentPacket (player w) + packetsIn consumed
    /\ cursor_fits (callbacks w aq bufs).
Proof.
  revert w. induction bufs as [|buf bufs IH]; intros w Hfits.
  - exists []. simpl. split; [reflexivity|]. split; [lia | exact Hfits].
  - destruct (HandleOutputBuffer_cursor w aq buf Hfits) as (c1 & Hp1 & Hc1 & Hf1).
    destruct (IH _ Hf1) as (c2 & Hp2 & Hc2 & Hf2).
    exists (c1 ++ c2). unfold callbacks in *. simpl.
    rewrite Hc2, Hc1, packetsIn_app, <- app_assoc, <- Hp2.
    split; [exact Hp1|]. split; [lia | exact Hf2].
Qed.

(** Allocating a buffer touches neither the cursor nor the file. *)
Lemma AudioQueueAllocateBuffer_cursor (w : World) (size : Z) (k : nat) :
  pendingReads (AudioQueueAllocateBuffer w size k) = pendingReads w
  /\ mCurrentPacket (player (AudioQueueAllocateBuffer w size k))
     = mCurrentPacket (player w).
Proof. split; reflexivity. Qed.

Lemma primeBuffer_cursor (w : World) (k : nat) :
  cursor_fits w ->
  exists consumed,
    pendingReads w = consumed ++ pendingReads (primeBuffer w k)
    /\ mCurrentPacket (player (primeBuffer w k))
       = mCurrentPacket (player w) + packetsIn consumed
    /\ cursor_fits (primeBuffer w k).
Proof.
  intros Hfits. unfold primeBuffer.
  set (w1 := AudioQueueAllocateBuffer w (bufferByteSize (player w)) k).
  apply (HandleOutputBuffer_cursor w1). exact Hfits.
Qed.

Lemma priming_cursor (ks : list nat) (w : World) :
  cursor_fits w ->
  exists consumed,
    pendingReads w = consumed ++ pendingReads (fold_left primeBuffer ks w)
    /\ mCurrentPacket (player (fold_left primeBuffer ks w))
       = mCurrentPacket (player w) + packetsIn consumed
    /\ cursor_fits (fold_left primeBuffer ks w).
Proof.
  revert w. induction ks as [|k ks IH]; intros w Hfits.
  - exists []. simpl. split; [reflexivity|]. split; [lia | exact Hfits].
  - destruct (primeBuffer_cursor w k Hfits) as (c1 & Hp1 & Hc1 & Hf1).
    destruct (IH _ Hf1) as (c2 & Hp2 & Hc2 & Hf2).
    exists (c1 ++ c2). simpl.
    rewrite Hc2, Hc1, packetsIn_app, <- app_assoc, <- Hp2.
    split; [exact Hp1|]. split; [lia | exact Hf2].
Qed.

Lemma AllocateBuffersAndPrime_cursor (w : World) :
  Forall (fun r => 0 <= rdNumPackets r) (pendingReads w) ->
  packetsIn (pendingReads w) <= SInt64_MAX ->
  exists consumed,
    pendingReads w = consumed ++ pendingReads (AQPlayerState_AllocateBuffersAndPrime w)
    /\ mCurrentPacket (player (AQPlayerState_AllocateBuffersAndPrime w))
       = packetsIn consumed
    /\ cursor_fits (AQPlayerState_AllocateBuffersAndPrime w).
Proof.
  intros Hreads Hsum.
  assert (cursor_fits (set_player (set_mCurrentPacket 0) w)) as Hstart.
  { split; [|split]; [apply Z.le_refl | exact Hsum | exact Hreads]. }
  destruct (priming_cursor (seq 0 kNumberBuffers) _ Hstart) as (c & Hp & Hc & Hf).
  exists c. split; [exact Hp|]. split; [exact Hc | exact Hf].
Qed.

(** C6: [AQPlayerState_AllocateBuffersAndPrime] starts the cursor at 0.
    When the packets the file hands out fit in an [SInt64], then after
    priming and after any further sequence of callbacks the cursor is the
    sum of the packets of the reads made so far, so each refill adds the
    packets it read; the cursor never goes down (the next callback included)
    and never leaves the range of [SInt64]. *)
Theorem cursor_is_sum_of_packets_read (w : World) (aq : AudioQueueRef)
        (bufs : list AudioQueueBufferRef) :
  Forall (fun r => 0 <= rdNumPackets r) (pendingReads w) ->
  packetsIn (pendingReads w) <= SInt64_MAX ->
  let start := set_player (set_mCurrentPacket 0) w in
  let primed := AQPlayerState_AllocateBuffersAndPrime w in
  let later := callbacks primed aq bufs in
  mCurrentPacket (player start) = 0
  /\ exists duringPriming afterwards,
       pendingReads w = duringPriming ++ afterwards ++ pendingReads later
       /\ pendingReads primed = afterwards ++ pendingReads later
       /\ mCurrentPacket (player primed) = packetsIn duringPriming
       /\ mCurrentPacket (player later)
          = packetsIn duringPriming + packetsIn afterwards
       /\ 0 <= mCurrentPacket (player primed) <= mCurrentPacket (player later)
       /\ mCurrentPacket (player later) <= SInt64_MAX
       /\ forall buf,
            mCurrentPacket (player later)
            <= mCurrentPacket (player (HandleOutputBuffer later aq buf))
            <= SInt64_MAX.
Proof.
  intros Hreads Hsum start primed later. split; [reflexivity|].
  clear start.
  destruct (AllocateBuffersAndPrime_cursor w Hreads Hsum) as (c1 & Hp1 & Hc1 & Hf1).
  fold primed in Hp1, Hc1, Hf1.
  destruct (callbacks_cursor bufs primed aq Hf1) as (c2 & Hp2 & Hc2 & Hf2).
  fold later in Hp2, Hc2, Hf2.
  exists c1, c2.
  clearbody primed later.
  assert (0 <= packetsIn c1 /\ 0 <= packetsIn c2) as [Hn1 Hn2].
  { rewrite Hp1 in Hreads. apply Forall_app in Hreads as [H1 H2].
    rewrite Hp2 in H2. apply Forall_app in H2 as [H2 _].
    split; apply packetsIn_nonneg; assumption. }
  destruct Hf2 as (Hlow2 & Hhigh2 & Hreads2).
  pose proof (packetsIn_nonneg _ Hreads2) as Hrest.
  split; [rewrite <- Hp2; exact Hp1|].
  split; [exact Hp2|].
  split; [lia|]. split; [lia|]. split; [lia|]. split; [lia|].
  intros buf.
  destruct (HandleOutputBuffer_cursor later aq buf (conj Hlow2 (conj Hhigh2 Hreads2)))
    as (c3 & Hp3 & Hc3 & (Hlow3 & Hhigh3 & Hreads3)).
  pose proof (packetsIn_nonneg _ Hreads3) as Hrest3.
  assert (0 <= packetsIn c3).
  { rewrite Hp3 in Hreads2. apply Forall_app in Hreads2 as [H _].
    apply packetsIn_nonneg. exact H. }
  lia.
Qed.

(** A PCM file read in loads of 8, 8, 8 and 5 packets: the cursor is 24
    after priming and 29 after the next callback; a further callback finds
    the file at its end and leaves the cursor at 29. *)
Lemma cursor_is_sum_of_packets_read_witness :
  mCurrentPacket (player (AQPlayerState_AllocateBuffersAndPrime (readyToPrime pcmLong)))
  = 24
  /\ mCurrentPacket
       (player (callbacks (AQPlayerState_AllocateBuffersAndPrime (readyToPrime pcmLong))
                          2 [0; 1]%nat))
     = 29
  /\ exists duringPriming afterwards,
       pendingReads (readyToPrime pcmLong) = duringPriming ++ afterwards ++ []
       /\ packetsIn duringPriming = 24 /\ packetsIn afterwards = 5.
Proof.
  split; [vm_compute; reflexivity|]. split; [vm_compute; reflexivity|].
  destruct (cursor_is_sum_of_packets_read (readyToPrime pcmLong) 2 [0; 1]%nat)
    as (_ & d1 & d2 & Hp & _ & Hc1 & Hc2 & _).
  - vm_compute. repeat constructor; discriminate.
  - vm_compute. discriminate.
  - exists d1, d2.
    assert (pendingReads
              (callbacks (AQPlayerState_AllocateBuffersAndPrime (readyToPrime pcmLong))
                         2 [0; 1]%nat) = []) as Hend by (vm_compute; reflexivity).
    rewrite Hend in Hp. split; [exact Hp|].
    assert (mCurrentPacket
              (player (AQPlayerState_AllocateBuffersAndPrime (readyToPrime pcmLong)))
            = 24) as H24 by (vm_compute; reflexivity).
    assert (mCurrentPacket
              (player (callbacks
                         (AQPlayerState_AllocateBuffersAndPrime (readyToPrime pcmLong))
                         2 [0; 1]%nat)) = 29) as H29 by (vm_compute; reflexivity).
    rewrite H24 in Hc1. rewrite H29 in Hc2. lia.
Defined.

End CursorFacts.

(* ================================================================== *)
(** * Priming *)
(* ================================================================== *)

Section PrimingFacts.

(** What a callback leaves alone, and the kind of events it adds. *)
Lemma HandleOutputBuffer_frame (w : World) (aq : AudioQueueRef)
      (buf : AudioQueueBufferRef) :
  mQueue (player (HandleOutputBuffer w aq buf)) = mQueue (player w)
  /\ bufferByteSize (player (HandleOutputBuffer w aq buf)) = bufferByteSize (player w)
  /\ mBuffers (player (HandleOutputBuffer w aq buf)) = mBuffers (player w)
  /\ List.length (queueBuffers (HandleOutputBuffer w aq buf))
     = List.length (queueBuffers w)
  /\ exists added,
       trace (HandleOutputBuffer w aq buf) = trace w ++ added
       /\ forallb callbackEvent added = true.
Proof.
  destruct (mIsRunning (player w)) eqn:Hrun.
  2:{ rewrite (HandleOutputBuffer_stopped_id w aq buf Hrun).
      repeat split. exists []. rewrite app_nil_r. split; reflexivity. }
  destruct (Z_lt_le_dec 0 (rdNumPackets (hd endOfFile (pendingReads w))))
    as [Hpos|Hzero].
  - rewrite (HandleOutputBuffer_refill w aq buf Hrun Hpos).
    cbn [player queueBuffers trace]. rewrite !length_update_buffer.
    destruct (mPacketDescs (player w)); simpl; repeat split;
      eexists; split; reflexivity.
  - rewrite (HandleOutputBuffer_stop w aq buf Hrun Hzero).
    cbn [player queueBuffers trace]. rewrite !length_update_buffer.
    destruct (mPacketDescs (player w)); simpl; repeat split;
      eexists; split; reflexivity.
Qed.

Lemma nth_array_set (l : list nat) (k v d : nat) :
  (k < List.length l)%nat -> nth k (array_set l k v) d = v.
Proof.
  revert k. induction l as [|h t IH]; intros [|k] Hk; simpl in *;
    [lia | lia | reflexivity | apply IH; lia].
Qed.

(** One turn of the priming loop: a buffer is allocated and the callback is
    run on that new buffer. *)
Lemma primeBuffer_eq (w : World) (k : nat) :
  (k < List.length (mBuffers (player w)))%nat ->
  primeBuffer w k
  = HandleOutputBuffer (AudioQueueAllocateBuffer w (bufferByteSize (player w)) k)
                       (mQueue (player w)) (List.length (queueBuffers w)).
Proof.
  intros Hk. unfold primeBuffer. simpl.
  rewrite nth_array_set by assumption. reflexivity.
Qed.

Lemma primeBuffer_frame (w : World) (k : nat) :
  mQueue (player (primeBuffer w k)) = mQueue (player w)
  /\ bufferByteSize (player (primeBuffer w k)) = bufferByteSize (player w)
  /\ mBuffers (player (primeBuffer w k))
     = array_set (mBuffers (player w)) k (List.length (queueBuffers w))
  /\ List.length (queueBuffers (primeBuffer w k)) = S (List.length (queueBuffers w))
  /\ notStarted (trace (primeBuffer w k)) = notStarted (trace w).
Proof.
  unfold primeBuffer.
  set (w1 := AudioQueueAllocateBuffer w (bufferByteSize (player w)) k).
  destruct (HandleOutputBuffer_frame w1 (mQueue (player w1))
              (nth k (mBuffers (player w1)) O))
    as (Hq & Hs & Hb & Hl & added & Ht & Hadded).
  rewrite Hq, Hs, Hb, Hl, Ht. subst w1. simpl.
  rewrite length_app. simpl. repeat split; try lia.
  unfold notStarted. rewrite !forallb_app. simpl.
  rewrite andb_true_r.
  replace (forallb _ added) with true; [apply andb_true_r|].
  symmetry. rewrite forallb_forall in *. intros e He.
  specialize (Hadded e He). destruct e; try discriminate; reflexivity.
Qed.




End PrimingFacts.

(* ================================================================== *)
(** * The session *)
(* ================================================================== *)

Section SessionFacts.

(** When initialisation completes, the file was opened without a listed
    error, the queue was created, the sizes are those of
    [DeriveBufferSize], and priming started from a running player with no
    buffer allocated. *)
Lemma Initialize_continue (env : Env) (w : World) :
  AQPlayerState_Initialize env (initialWorld env) = Continue w ->
  exists before outBufferSize outNumPacketsToRead,
    w = AQPlayerState_SetGain (AQPlayerState_AllocateBuffersAndPrime before)
    /\ resultCodeMessage (envOpenStatus env) = None
    /\ envNewOutputStatus env = noErr
    /\ DeriveBufferSize (envDataFormat env) (envMaxPacketSize env) half_second
       = Some (outBufferSize, outNumPacketsToRead)
    /\ bufferByteSize (player before) = outBufferSize
    /\ mNumPacketsToRead (player before) = outNumPacketsToRead
    /\ mQueue (player before) = envQueue env
    /\ mIsRunning (player before) = true
    /\ mBuffers (player before) = repeat O kNumberBuffers
    /\ queueBuffers before = []
    /\ enqueued before = []
    /\ pendingReads before = envReads env
    /\ descs_follow_format before
    /\ notStarted (trace before) = true
    /\ silent (trace before) = true.
Proof.
  unfold AQPlayerState_Initialize, AQPlayerState_InitAudioFile, PrintResultCodes,
    AQPlayerState_InitOutputQueue, CheckError, AQPlayerState_InitSizes.
  destruct (resultCodeMessage (envOpenStatus env)) as [message|] eqn:Hopen;
    [discriminate|].
  cbn [andThen].
  destruct (Z.eqb_spec (envNewOutputStatus env) noErr) as [Hnew|]; [|discriminate].
  cbn [andThen]. unfold AQPlayerState_InitBasicDescription.
  cbn [player set_player log mDataFormat set_file_format_queue].
  destruct (DeriveBufferSize (envDataFormat env) (envMaxPacketSize env) half_second)
    as [[outBufferSize outNumPacketsToRead]|] eqn:Hsizes; [|discriminate].
  cbn [andThen]. intros [= <-].
  eexists _, outBufferSize, outNumPacketsToRead.
  split; [reflexivity|].
  split; [reflexivity|]. split; [exact Hnew|]. split; [reflexivity|].
  unfold AQPlayerState_MagicCookie, AQPlayerState_AllocatePacketDescriptionsArray,
    descs_follow_format.
  cbn [player set_player log mDataFormat set_file_format_queue set_sizes].
  destruct (isFormatVBR (envDataFormat env)) eqn:Hvbr;
    destruct (envHasMagicCookie env); cbn; rewrite ?Hvbr; repeat split.
Qed.

(** A callback that leaves the player running has put its buffer in the
    queue and used up one pending read. *)
Lemma HandleOutputBuffer_progress (w : World) (aq : AudioQueueRef)
      (buf : AudioQueueBufferRef) :
  mIsRunning (player (HandleOutputBuffer w aq buf)) = true ->
  enqueued (HandleOutputBuffer w aq buf) = enqueued w ++ [buf]
  /\ List.length (pendingReads w)
     = S (List.length (pendingReads (HandleOutputBuffer w aq buf))).
Proof.
  destruct (mIsRunning (player w)) eqn:Hrun.
  2:{ rewrite (HandleOutputBuffer_stopped_id w aq buf Hrun).
      rewrite Hrun. discriminate. }
  destruct (Z_lt_le_dec 0 (rdNumPackets (hd endOfFile (pendingReads w))))
    as [Hpos|Hzero].
  - rewrite (HandleOutputBuffer_refill w aq buf Hrun Hpos).
    cbn [player enqueued pendingReads]. intros _. split; [reflexivity|].
    destruct (pendingReads w); [simpl in Hpos; lia | reflexivity].
  - rewrite (HandleOutputBuffer_stop w aq buf Hrun Hzero).
    cbn [player]. destruct (mPacketDescs (player w)); discriminate.
Qed.

(** The callbacks of the run loop add only reads, enqueues and stops. *)
Lemma deliverCallback_trace (w w' : World) :
  deliverCallback w = Some w' ->
  exists added,
    trace w' = trace w ++ added /\ forallb callbackEvent added = true.
Proof.
  unfold deliverCallback. destruct (enqueued w) as [|buf rest]; [discriminate|].
  intros [= <-].
  match goal with
  | |- context [HandleOutputBuffer ?v ?q ?b] =>
      destruct (HandleOutputBuffer_frame v q b) as (_ & _ & _ & _ & H)
  end.
  exact H.
Qed.

(** The run loop ends once the file is used up: with more fuel than pending
    reads, and a buffer in the queue whenever the player runs, it returns
    a world in which the player has stopped. *)
Lemma runUntilStopped_stops (fuel : nat) (w : World) :
  (List.length (pendingReads w) < fuel)%nat ->
  (mIsRunning (player w) = true -> enqueued w <> []) ->
  exists w' added,
    runUntilStopped fuel w = Some w'
    /\ mIsRunning (player w') = false
    /\ trace w' = trace w ++ added
    /\ forallb callbackEvent added = true.
Proof.
  revert w. induction fuel as [|fuel IH]; intros w Hfuel Hqueue; [lia|].
  cbn [runUntilStopped].
  destruct (mIsRunning (player w)) eqn:Hrun; cbn [negb].
  2:{ exists w, []. rewrite app_nil_r. auto. }
  destruct (deliverCallback w) as [w1|] eqn:Hdeliver.
  2:{ unfold deliverCallback in Hdeliver.
      destruct (enqueued w); [exfalso; apply Hqueue; reflexivity | discriminate]. }
  destruct (deliverCallback_trace w w1 Hdeliver) as (added1 & Ht1 & Ha1).
  destruct (mIsRunning (player w1)) eqn:Hrun1.
  - unfold deliverCallback in Hdeliver.
    destruct (enqueued w) as [|buf rest]; [discriminate|].
    injection Hdeliver as Hw1. rewrite <- Hw1 in Hrun1.
    apply HandleOutputBuffer_progress in Hrun1 as [Henq Hlen].
    rewrite Hw1 in Henq, Hlen. cbn [pendingReads enqueued] in Henq, Hlen.
    destruct (IH w1) as (w' & added & Hloop & Hstop & Ht & Ha).
    + lia.
    + intros _. rewrite Henq. destruct rest; discriminate.
    + exists w', (added1 ++ added). rewrite Ht, Ht1, app_assoc, forallb_app, Ha1, Ha.
      auto.
  - exists w1, added1. split; [|auto].
    destruct fuel; cbn [runUntilStopped]; rewrite Hrun1; reflexivity.
Qed.

(** Once the player has stopped, the callbacks of the buffers left in the
    queue change nothing but the queue, which empties. *)
Lemma drainCallbacks_stopped (n : nat) (w : World) :
  mIsRunning (player w) = false ->
  (List.length (enqueued w) <= n)%nat ->
  enqueued (drainCallbacks n w) = []
  /\ player (drainCallbacks n w) = player w
  /\ queueBuffers (drainCallbacks n w) = queueBuffers w
  /\ pendingReads (drainCallbacks n w) = pendingReads w
  /\ trace (drainCallbacks n w) = trace w.
Proof.
  revert w. induction n as [|n IH]; intros w Hstop Hlen.
  - simpl. destruct (enqueued w); [auto | simpl in Hlen; lia].
  - cbn [drainCallbacks]. unfold deliverCallback.
    destruct (enqueued w) as [|buf rest] eqn:Henq; [auto|].
    rewrite HandleOutputBuffer_stopped_id by exact Hstop.
    match goal with
    | |- context [drainCallbacks n ?v] =>
        destruct (IH v) as (H1 & H2 & H3 & H4 & H5);
          [exact Hstop | simpl in *; lia |]
    end.
    rewrite H1, H2, H3, H4, H5. auto.
Qed.

(** A player still running after priming has buffers in the queue. *)
Lemma primed_running_has_queue (w : World) :
  mIsRunning (player (AQPlayerState_AllocateBuffersAndPrime w)) = true ->
  enqueued (AQPlayerState_AllocateBuffersAndPrime w) <> [].
Proof.
  assert (AQPlayerState_AllocateBuffersAndPrime w
          = primeBuffer
              (primeBuffer
                 (primeBuffer (set_player (set_mCurrentPacket 0) w) 0) 1) 2) as ->
      by reflexivity.
  set (v := primeBuffer (primeBuffer (set_player (set_mCurrentPacket 0) w) 0) 1).
  unfold primeBuffer. intros Hrun.
  apply HandleOutputBuffer_progress in Hrun as [-> _].
  intros Hnil. apply app_eq_nil in Hnil as [_ Hnil]. discriminate.
Qed.

(** [main] once initialisation is over: a failed [AudioQueueStart] is
    reported and ends the program with code 1; otherwise the run loop ends,
    the queue drains, and [main] returns 0. *)
Lemma main_after_Initialize (env : Env) (w : World) :
  AQPlayerState_Initialize env (initialWorld env) = Continue w ->
  (envStartStatus env <> noErr ->
   main env = Halt (Exit 1)
                (log (EvStderr "AudioQueueStart" (envStartStatus env))
                     (log (EvStart (envStartStatus env)) w)))
  /\ (envStartStatus env = noErr ->
      exists w' added,
        main env = Halt (Exit 0) w'
        /\ mIsRunning (player w') = false
        /\ enqueued w' = []
        /\ forallb callbackEvent added = true
        /\ trace w' = trace w ++ [EvStart noErr] ++ added
                        ++ [EvDispose true; EvFileClose]).
Proof.
  intros Hinit.
  assert (mIsRunning (player w) = true -> enqueued w <> []) as Hqueue.
  { destruct (Initialize_continue env w Hinit) as (before & bs & n & Hw & _).
    pose proof (primed_running_has_queue before) as Hprimed.
    clear Hinit. revert Hw Hprimed.
    generalize (AQPlayerState_AllocateBuffersAndPrime before).
    intros primed -> Hprimed. exact Hprimed. }
  unfold main. rewrite Hinit. cbn [andThen]. unfold CheckError.
  split; intros Hstart.
  - destruct (Z.eqb_spec (envStartStatus env) noErr); [contradiction | reflexivity].
  - rewrite Hstart. rewrite Z.eqb_refl. cbn [andThen].
    destruct (runUntilStopped_stops
                (S (List.length (pendingReads (log (EvStart noErr) w))))
                (log (EvStart noErr) w) (Nat.lt_succ_diag_r _) Hqueue)
      as (w2 & added & Hloop & Hstop & Ht & Ha).
    rewrite Hloop.
    destruct (drainCallbacks_stopped (List.length (enqueued w2)) w2 Hstop (le_n _))
      as (Hq & Hp & _ & _ & Hd).
    eexists _, added. split; [reflexivity|].
    unfold AQPlayerState_CleanUp. cbn [player enqueued trace log].
    rewrite Hq, Hp, Hd, Ht. cbn [trace log].
    rewrite <- !app_assoc. auto.
Qed.

Lemma silent_callbackEvents (events : list Event) :
  forallb callbackEvent events = true -> silent events = true.
Proof.
  unfold silent. rewrite !forallb_forall. intros H e He.
  specialize (H e He). destruct e; try discriminate; reflexivity.
Qed.

Lemma primeBuffer_silent (w : World) (k : nat) :
  silent (trace (primeBuffer w k)) = silent (trace w).
Proof.
  unfold primeBuffer.
  set (w1 := AudioQueueAllocateBuffer w (bufferByteSize (player w)) k).
  destruct (HandleOutputBuffer_frame w1 (mQueue (player w1))
              (nth k (mBuffers (player w1)) O))
    as (_ & _ & _ & _ & added & Ht & Hadded).
  rewrite Ht. apply silent_callbackEvents in Hadded.
  unfold silent in *. rewrite forallb_app, Hadded, andb_true_r.
  subst w1. cbn [trace AudioQueueAllocateBuffer log].
  rewrite forallb_app. cbn [forallb]. apply andb_true_r.
Qed.

Lemma AllocateBuffersAndPrime_silent (w : World) :
  silent (trace (AQPlayerState_AllocateBuffersAndPrime w)) = silent (trace w).
Proof.
  assert (AQPlayerState_AllocateBuffersAndPrime w
          = primeBuffer
              (primeBuffer
                 (primeBuffer (set_player (set_mCurrentPacket 0) w) 0) 1) 2) as ->
      by reflexivity.
  rewrite !primeBuffer_silent. reflexivity.
Qed.

(** [AQPlayerState_SetGain] only adds its event. *)
Lemma SetGain_frame (w : World) :
  player (AQPlayerState_SetGain w) = player w
  /\ queueBuffers (AQPlayerState_SetGain w) = queueBuffers w
  /\ enqueued (AQPlayerState_SetGain w) = enqueued w
  /\ notStarted (trace (AQPlayerState_SetGain w)) = notStarted (trace w)
  /\ silent (trace (AQPlayerState_SetGain w)) = silent (trace w).
Proof.
  unfold AQPlayerState_SetGain, notStarted, silent. cbn [player queueBuffers enqueued trace log].
  rewrite !forallb_app. cbn [forallb]. rewrite !andb_true_r. repeat split.
Qed.

(** The descriptor array follows the format from the end of initialisation
    on: priming keeps what [AQPlayerState_AllocatePacketDescriptionsArray]
    set up, and so does every later callback. *)
Lemma primeBuffer_keeps_descs (w : World) (k : nat) :
  descs_follow_format w -> descs_follow_format (primeBuffer w k).
Proof.
  intros Hdescs. unfold primeBuffer.
  apply HandleOutputBuffer_keeps_descs. exact Hdescs.
Qed.

Lemma Initialize_descs (env : Env) (w : World) :
  AQPlayerState_Initialize env (initialWorld env) = Continue w ->
  descs_follow_format w.
Proof.
  intros Hinit.
  destruct (Initialize_continue env w Hinit)
    as (before & bs & n & -> & _ & _ & _ & _ & _ & _ & _ & _ & _ & _ & _ & Hd & _).
  assert (descs_follow_format (AQPlayerState_AllocateBuffersAndPrime before)) as Hp.
  { assert (AQPlayerState_AllocateBuffersAndPrime before
            = primeBuffer
                (primeBuffer
                   (primeBuffer (set_player (set_mCurrentPacket 0) before) 0) 1) 2)
      as -> by reflexivity.
    do 3 apply primeBuffer_keeps_descs. exact Hd. }
  unfold descs_follow_format in *.
  destruct (SetGain_frame (AQPlayerState_AllocateBuffersAndPrime before)) as (-> & _).
  exact Hp.
Qed.

Lemma callbacks_keep_descs (bufs : list AudioQueueBufferRef) (w : World)
      (aq : AudioQueueRef) :
  descs_follow_format w -> descs_follow_format (callbacks w aq bufs).
Proof.
  revert w. induction bufs as [|buf bufs IH]; intros w Hd; [exact Hd|].
  apply (IH (HandleOutputBuffer w aq buf)).
  apply HandleOutputBuffer_keeps_descs. exact Hd.
Qed.

Lemma Initialize_succeeds (env : Env) (outBufferSize outNumPacketsToRead : Z) :
  resultCodeMessage (envOpenStatus env) = None ->
  envNewOutputStatus env = noErr ->
  DeriveBufferSize (envDataFormat env) (envMaxPacketSize env) half_second
  = Some (outBufferSize, outNumPacketsToRead) ->
  exists w, AQPlayerState_Initialize env (initialWorld env) = Continue w.
Proof.
  intros Hopen Hnew Hsizes.
  unfold AQPlayerState_Initialize, AQPlayerState_InitAudioFile, PrintResultCodes,
    AQPlayerState_InitOutputQueue, CheckError, AQPlayerState_InitSizes.
  rewrite Hopen, Hnew, Z.eqb_refl. cbn [andThen].
  unfold AQPlayerState_InitBasicDescription.
  cbn [player set_player log mDataFormat set_file_format_queue].
  rewrite Hsizes. cbn [andThen]. eexists. reflexivity.
Qed.



End SessionFacts.

(* ================================================================== *)
(** * The text [CheckError] writes *)
(* ================================================================== *)

Section DiagnosticsFacts.

Lemma string_length_append (s1 s2 : string) :
  String.length (s1 ++ s2) = (String.length s1 + String.length s2)%nat.
Proof. induction s1 as [|c s1 IH]; simpl; [reflexivity | rewrite IH; reflexivity]. Qed.

Lemma nat_of_ascii_of_byte (b : Z) :
  0 <= b < 256 -> Z.of_nat (nat_of_ascii (ascii_of_byte b)) = b.
Proof.
  intros Hb. unfold ascii_of_byte. rewrite nat_ascii_embedding by lia. lia.
Qed.

Lemma nat_of_ascii_digit (d : Z) :
  0 <= d < 10 -> Z.of_nat (nat_of_ascii (digit d)) = 48 + d.
Proof.
  intros Hd. unfold digit. rewrite nat_ascii_embedding by lia. lia.
Qed.

Lemma nat_of_ascii_range (c : ascii) : 0 <= Z.of_nat (nat_of_ascii c) < 256.
Proof. pose proof (nat_ascii_bounded c). lia. Qed.

(** The four bytes are bytes, and they determine the 32 bits. *)
Lemma bigEndianBytes_spec (error : OSStatus) :
  exists b1 b2 b3 b4,
    bigEndianBytes error = [b1; b2; b3; b4]
    /\ 0 <= b1 < 256 /\ 0 <= b2 < 256 /\ 0 <= b3 < 256 /\ 0 <= b4 < 256
    /\ error mod 2 ^ 32 = b1 * 16777216 + b2 * 65536 + b3 * 256 + b4.
Proof.
  unfold bigEndianBytes. set (u := error mod 2 ^ 32).
  assert (0 <= u < 4294967296) as Hu by (apply Z.mod_pos_bound; lia).
  change (2 ^ 24) with 16777216. change (2 ^ 16) with 65536. change (2 ^ 8) with 256.
  eexists _, _, _, _. split; [reflexivity|].
  pose proof (Z.div_mod u 16777216 ltac:(lia)).
  pose proof (Z.mod_pos_bound u 16777216 ltac:(lia)).
  pose proof (Z.div_mod u 65536 ltac:(lia)).
  pose proof (Z.mod_pos_bound u 65536 ltac:(lia)).
  pose proof (Z.div_mod u 256 ltac:(lia)).
  pose proof (Z.mod_pos_bound u 256 ltac:(lia)).
  pose proof (Z.div_mod (u / 65536) 256 ltac:(lia)).
  pose proof (Z.mod_pos_bound (u / 65536) 256 ltac:(lia)).
  pose proof (Z.div_mod (u / 256) 256 ltac:(lia)).
  pose proof (Z.mod_pos_bound (u / 256) 256 ltac:(lia)).
  assert (u / 65536 / 256 = u / 16777216) as E1
      by (rewrite Z.div_div by lia; reflexivity).
  assert (u / 256 / 256 = u / 65536) as E2
      by (rewrite Z.div_div by lia; reflexivity).
  rewrite E1 in *. rewrite E2 in *.
  repeat split; try lia.
Qed.

Lemma bigEndianBytes_of_bytes (b1 b2 b3 b4 : Z) :
  0 <= b1 < 128 -> 0 <= b2 < 256 -> 0 <= b3 < 256 -> 0 <= b4 < 256 ->
  bigEndianBytes (((b1 * 256 + b2) * 256 + b3) * 256 + b4) = [b1; b2; b3; b4].
Proof.
  intros H1 H2 H3 H4.
  destruct (bigEndianBytes_spec (((b1 * 256 + b2) * 256 + b3) * 256 + b4))
    as (c1 & c2 & c3 & c4 & -> & Hc1 & Hc2 & Hc3 & Hc4 & Hu).
  rewrite Z.mod_small in Hu by lia.
  assert (c1 = b1 /\ c2 = b2 /\ c3 = b3 /\ c4 = b4) as (-> & -> & -> & ->) by lia.
  reflexivity.
Qed.

(** X12: an error whose four bytes are printable characters is written as
    those four characters between single quotes: [CheckError] shows a
    four-character code as the header that defines it spells it. *)
Theorem errorString_four_character_code (a b c d : ascii) :
  printable a -> printable b -> printable c -> printable d ->
  errorString (FourCharCode (String a (String b (String c (String d EmptyString)))))
  = String "'" (String a (String b (String c (String d (String "'" EmptyString))))).
Proof.
  unfold printable, isprint. intros Ha Hb Hc Hd.
  apply andb_prop in Ha as [Ha1 Ha2]. apply andb_prop in Hb as [Hb1 Hb2].
  apply andb_prop in Hc as [Hc1 Hc2]. apply andb_prop in Hd as [Hd1 Hd2].
  apply Z.leb_le in Ha1, Ha2, Hb1, Hb2, Hc1, Hc2, Hd1, Hd2.
  unfold FourCharCode. cbn [list_ascii_of_string fold_left].
  change (0 * 256 + Z.of_nat (nat_of_ascii a)) with (Z.of_nat (nat_of_ascii a)).
  unfold errorString.
  rewrite bigEndianBytes_of_bytes by lia.
  assert (forall n, 32 <= n <= 126 ->
            (32 <=? char_of_byte n) && (char_of_byte n <=? 126) = true) as Hp.
  { intros n Hn. unfold char_of_byte.
    destruct (Z.ltb_spec n 128); [|lia].
    apply andb_true_intro. split; apply Z.leb_le; lia. }
  cbn [forallb]. unfold isprint.
  rewrite !Hp by lia. cbn [andb string_of_bytes append].
  unfold ascii_of_byte. rewrite !Nat2Z.id, !ascii_nat_embedding. reflexivity.
Qed.

Lemma errorString_four_character_code_witness :
  errorString (FourCharCode "fmt?") = "'fmt?'"%string.
Proof.
  apply (errorString_four_character_code "f" "m" "t" "?"); reflexivity.
Defined.

Lemma decimalValueFrom_append (s1 s2 : string) (acc : Z) :
  decimalValueFrom acc (s1 ++ s2) = decimalValueFrom (decimalValueFrom acc s1) s2.
Proof.
  revert acc. induction s1 as [|c s1 IH]; intros acc; simpl; [reflexivity | apply IH].
Qed.

Lemma decimalDigits_value (fuel : nat) (n : Z) :
  0 <= n < 10 ^ Z.of_nat fuel ->
  decimalValueFrom 0 (decimalDigits fuel n) = n.
Proof.
  revert n. induction fuel as [|fuel IH]; intros n Hn.
  - simpl in Hn. simpl. lia.
  - cbn [decimalDigits]. destruct (Z.ltb_spec n 10) as [Hsmall|Hbig].
    + cbn [decimalValueFrom]. rewrite nat_of_ascii_digit by lia. lia.
    + rewrite decimalValueFrom_append, IH.
      * cbn [decimalValueFrom].
        rewrite nat_of_ascii_digit by (apply Z.mod_pos_bound; lia).
        pose proof (Z.div_mod n 10 ltac:(lia)). lia.
      * rewrite Nat2Z.inj_succ, Z.pow_succ_r in Hn by lia.
        split; [apply Z.div_pos; lia | apply Z.div_lt_upper_bound; lia].
Qed.

(** The digits start with a digit. *)
Lemma decimalDigits_head (fuel : nat) (n : Z) :
  0 <= n ->
  exists d rest, 0 <= d < 10 /\ decimalDigits (S fuel) n = String (digit d) rest.
Proof.
  revert n. induction fuel as [|fuel IH]; intros n Hn.
  - cbn [decimalDigits]. destruct (Z.ltb_spec n 10).
    + exists n, EmptyString. split; [lia | reflexivity].
    + exists (n mod 10), EmptyString.
      split; [apply Z.mod_pos_bound; lia | reflexivity].
  - remember (S fuel) as f. cbn [decimalDigits]. destruct (Z.ltb_spec n 10).
    + exists n, EmptyString. split; [lia | reflexivity].
    + subst f. destruct (IH (n / 10)) as (d & rest & Hd & ->);
        [apply Z.div_pos; lia|].
      exists d, (rest ++ String (digit (n mod 10)) EmptyString)%string.
      split; [exact Hd | reflexivity].
Qed.

Lemma digit_not_minus (d : Z) : 0 <= d < 10 -> digit d <> "-"%char.
Proof.
  intros Hd Heq. pose proof (nat_of_ascii_digit d Hd) as H.
  rewrite Heq in H. change (Z.of_nat (nat_of_ascii "-")) with 45 in H. lia.
Qed.

Lemma digit_not_quote (d : Z) : 0 <= d < 10 -> digit d <> "'"%char.
Proof.
  intros Hd Heq. pose proof (nat_of_ascii_digit d Hd) as H.
  rewrite Heq in H. change (Z.of_nat (nat_of_ascii "'")) with 39 in H. lia.
Qed.

(** The text of [%d] reads back as the number. *)
Lemma sprintf_d_value (n : Z) :
  is_SInt32 n -> signedDecimalValue (sprintf_d n) = n.
Proof.
  unfold is_SInt32, sprintf_d. intros Hn.
  destruct (Z.ltb_spec n 0) as [Hneg|Hpos].
  - cbn [signedDecimalValue]. rewrite decimalDigits_value; [lia|].
    change (10 ^ Z.of_nat 10) with 10000000000. lia.
  - destruct (decimalDigits_head 9 n Hpos) as (d & rest & Hd & Heq).
    rewrite Heq. unfold signedDecimalValue.
    assert (decimalValueFrom 0 (String (digit d) rest) = n) as Hv.
    { rewrite <- Heq. apply decimalDigits_value.
      change (10 ^ Z.of_nat 10) with 10000000000. lia. }
    pose proof (digit_not_minus d Hd) as Hminus.
    destruct (digit d) as [[] [] [] [] [] [] [] []];
      try exact Hv; contradiction Hminus; reflexivity.
Qed.

(** The text of [%d] starts with a minus sign or a digit. *)
Lemma sprintf_d_head (n : Z) :
  exists c rest, sprintf_d n = String c rest /\ c <> "'"%char.
Proof.
  unfold sprintf_d. destruct (Z.ltb_spec n 0) as [Hneg|Hpos].
  - eexists _, _. split; [reflexivity | discriminate].
  - destruct (decimalDigits_head 9 n Hpos) as (d & rest & Hd & ->).
    exists (digit d), rest. split; [reflexivity | apply digit_not_quote, Hd].
Qed.

Lemma decimalDigits_length (fuel : nat) (n : Z) :
  (String.length (decimalDigits fuel n) <= fuel)%nat.
Proof.
  revert n. induction fuel as [|fuel IH]; intros n; [simpl; lia|].
  cbn [decimalDigits]. destruct (n <? 10); [simpl; lia|].
  rewrite string_length_append. specialize (IH (n / 10)). simpl. lia.
Qed.

(** An error shown as an integer: its first byte is not a printable
    character. *)
Lemma errorString_integer (error : OSStatus) :
  is_SInt32 error -> error < 0x20000000 -> errorString error = sprintf_d error.
Proof.
  unfold is_SInt32. intros Hrange Hsmall. unfold errorString.
  destruct (bigEndianBytes_spec error)
    as (b1 & b2 & b3 & b4 & -> & H1 & H2 & H3 & H4 & Hu).
  cbn [forallb].
  replace (isprint (char_of_byte b1)) with false; [reflexivity|].
  symmetry. unfold isprint, char_of_byte.
  destruct (Z_lt_le_dec error 0) as [Hneg|Hpos].
  - assert (error mod 2 ^ 32 = error + 4294967296) as Hm.
    { symmetry. apply (Z.mod_unique _ _ (-1)); lia. }
    rewrite Hm in Hu. destruct (Z.ltb_spec b1 128); [lia|].
    apply andb_false_intro1. apply Z.leb_gt. lia.
  - rewrite Z.mod_small in Hu by lia.
    destruct (Z.ltb_spec b1 128); [|lia].
    apply andb_false_intro1. apply Z.leb_gt. lia.
Qed.

(** X13: every negative error, and every error below 0x20000000, is written
    as its signed decimal value: the text read as a decimal number is the
    error. *)
Theorem errorString_decimal (error : OSStatus) :
  is_SInt32 error -> error < 0x20000000 ->
  errorString error = sprintf_d error
  /\ signedDecimalValue (errorString error) = error.
Proof.
  intros Hrange Hsmall.
  rewrite (errorString_integer error Hrange Hsmall).
  split; [reflexivity | apply sprintf_d_value, Hrange].
Qed.

Lemma errorString_decimal_witness :
  errorString (-50) = "-50"%string /\ signedDecimalValue (errorString (-50)) = -50.
Proof.
  apply (errorString_decimal (-50)); unfold is_SInt32; lia.
Defined.

(** X14: two different errors are never written the same way. *)
Theorem errorString_injective (e1 e2 : OSStatus) :
  is_SInt32 e1 -> is_SInt32 e2 ->
  errorString e1 = errorString e2 -> e1 = e2.
Proof.
  unfold is_SInt32. intros Hr1 Hr2. unfold errorString.
  destruct (bigEndianBytes_spec e1)
    as (a1 & a2 & a3 & a4 & -> & Ha1 & Ha2 & Ha3 & Ha4 & Hu1).
  destruct (bigEndianBytes_spec e2)
    as (b1 & b2 & b3 & b4 & -> & Hb1 & Hb2 & Hb3 & Hb4 & Hu2).
  destruct (sprintf_d_head e1) as (c1 & r1 & Hs1 & Hc1).
  destruct (sprintf_d_head e2) as (c2 & r2 & Hs2 & Hc2).
  destruct (forallb _ [a1; a2; a3; a4]); destruct (forallb _ [b1; b2; b3; b4]).
  - cbn [string_of_bytes append]. intros [= E1 E2 E3 E4].
    assert (forall x y, 0 <= x < 256 -> 0 <= y < 256 ->
                        ascii_of_byte x = ascii_of_byte y -> x = y) as Hinj.
    { intros x y Hx Hy E. rewrite <- (nat_of_ascii_of_byte x Hx),
        <- (nat_of_ascii_of_byte y Hy), E. reflexivity. }
    apply Hinj in E1, E2, E3, E4; try assumption. subst.
    assert (e1 mod 2 ^ 32 = e2 mod 2 ^ 32) as Hm by lia.
    assert (forall e, - 0x80000000 <= e <= 0x7FFFFFFF ->
              e = (if e mod 2 ^ 32 <? 2147483648 then e mod 2 ^ 32
                   else e mod 2 ^ 32 - 4294967296)) as Hback.
    { intros e He. destruct (Z_lt_le_dec e 0).
      - assert (e mod 2 ^ 32 = e + 4294967296) as ->
            by (symmetry; apply (Z.mod_unique _ _ (-1)); lia).
        destruct (Z.ltb_spec (e + 4294967296) 2147483648); lia.
      - rewrite Z.mod_small by lia.
        destruct (Z.ltb_spec e 2147483648); lia. }
    rewrite (Hback e1 Hr1), (Hback e2 Hr2), Hm. reflexivity.
  - rewrite Hs2. intros [= E _]. exfalso. apply Hc2. symmetry. exact E.
  - rewrite Hs1. intros [= E _]. exfalso. apply Hc1. exact E.
  - intros E. rewrite <- (sprintf_d_value e1), <- (sprintf_d_value e2), E;
      [reflexivity | exact Hr2 | exact Hr1].
Qed.

Lemma errorString_injective_witness :
  errorString 1718449215 = errorString (FourCharCode "fmt?")
  /\ 1718449215 = FourCharCode "fmt?".
Proof.
  split; [vm_compute; reflexivity|].
  apply errorString_injective.
  - unfold is_SInt32; lia.
  - vm_compute. split; discriminate.
  - vm_compute. reflexivity.
Defined.

(** X15: the text of an error has at most 11 characters, so that with its
    terminating zero it stays inside the 20 bytes of [str]. *)
Theorem errorString_fits_buffer (error : OSStatus) :
  is_SInt32 error ->
  (String.length (errorString error) <= 11)%nat
  /\ (String.length (errorString error) + 1 <= 20)%nat.
Proof.
  intros _. assert (String.length (errorString error) <= 11)%nat; [|lia].
  unfold errorString.
  destruct (bigEndianBytes_spec error) as (b1 & b2 & b3 & b4 & -> & _).
  destruct (forallb _ _).
  - simpl. lia.
  - unfold sprintf_d. destruct (error <? 0); cbn [String.length].
    + pose proof (decimalDigits_length 10 (- error)). lia.
    + pose proof (decimalDigits_length 10 error). lia.
Qed.

Lemma errorString_fits_buffer_witness :
  String.length (errorString (-2147483648)) = 11%nat
  /\ (String.length (errorString (-2147483648)%Z) + 1 <= 20)%nat.
Proof.
  split; [vm_compute; reflexivity|].
  apply (errorString_fits_buffer (-2147483648)). unfold is_SInt32. lia.
Defined.

End DiagnosticsFacts.

(* ================================================================== *)
(** * More on the sizes [DeriveBufferSize] returns *)
(* ================================================================== *)

Section SizingBounds.

Lemma DeriveBufferSize_at_most
      inDesc maxPacketSize seconds outBufferSize outNumPacketsToRead :
  DeriveBufferSize inDesc maxPacketSize seconds = Some (outBufferSize, outNumPacketsToRead) ->
  outBufferSize <= Z.max maxBufferSize maxPacketSize.
Proof.
  intros H. apply DeriveBufferSize_inv in H as (size & _ & _ & -> & _).
  destruct (clampBufferSize_cases size maxPacketSize)
    as [(_ & _ & ->) | [(_ & ->) | (_ & Hle & ->)]];
    unfold maxBufferSize, minBufferSize in *; lia.
Qed.

(** X1: the buffer is never larger than the larger of the upper bound and
    one packet of the largest size; when such a packet is no larger than the
    upper bound, the buffer lies between the two bounds, whatever the
    format. *)
Theorem DeriveBufferSize_upper_bound
        inDesc maxPacketSize seconds outBufferSize outNumPacketsToRead :
  DeriveBufferSize inDesc maxPacketSize seconds = Some (outBufferSize, outNumPacketsToRead) ->
  outBufferSize <= Z.max maxBufferSize maxPacketSize
  /\ (maxPacketSize <= maxBufferSize ->
      minBufferSize <= outBufferSize <= maxBufferSize).
Proof.
  intros H. split.
  - exact (DeriveBufferSize_at_most _ _ _ _ _ H).
  - intros Hpkt. exact (DeriveBufferSize_in_range _ _ _ _ _ Hpkt H).
Qed.

Lemma DeriveBufferSize_upper_bound_witness :
  DeriveBufferSize pcm 4 half_second = Some (88200, 22050)
  /\ 88200 <= Z.max maxBufferSize 4
  /\ minBufferSize <= 88200 <= maxBufferSize.
Proof.
  split; [vm_compute; reflexivity|].
  destruct (DeriveBufferSize_upper_bound pcm 4 half_second 88200 22050) as [Hup Hin].
  - vm_compute. reflexivity.
  - split; [exact Hup | apply Hin; unfold maxBufferSize; lia].
Defined.

(** X2: for a format without a fixed number of frames per packet the sample
    rate and the duration play no part: the buffer is the larger of the
    upper bound and one packet, and at least one packet fits. *)
Theorem DeriveBufferSize_variable_rate inDesc maxPacketSize seconds :
  mFramesPerPacket inDesc = 0 ->
  0 < maxPacketSize ->
  DeriveBufferSize inDesc maxPacketSize seconds
  = Some (Z.max maxBufferSize maxPacketSize,
          Z.max maxBufferSize maxPacketSize / maxPacketSize)
  /\ 1 <= Z.max maxBufferSize maxPacketSize / maxPacketSize.
Proof.
  intros Hfpp Hpos.
  assert (DeriveBufferSize inDesc maxPacketSize seconds
          = Some (Z.max maxBufferSize maxPacketSize,
                  Z.max maxBufferSize maxPacketSize / maxPacketSize)) as Heq.
  { assert (unclampedBufferSize inDesc maxPacketSize seconds
            = Some (Z.max maxBufferSize maxPacketSize)) as Hsize.
    { unfold unclampedBufferSize. rewrite Hfpp. cbn [Z.eqb negb].
      destruct (Z.gtb_spec maxBufferSize maxPacketSize); f_equal; lia. }
    rewrite (DeriveBufferSize_defined _ _ _ _ Hsize) by lia.
    assert (clampBufferSize (Z.max maxBufferSize maxPacketSize) maxPacketSize
            = Z.max maxBufferSize maxPacketSize) as ->; [|reflexivity].
    destruct (clampBufferSize_cases (Z.max maxBufferSize maxPacketSize) maxPacketSize)
      as [(? & ? & ->) | [(? & ->) | (_ & _ & ->)]];
      unfold maxBufferSize, minBufferSize in *; lia. }
  split; [exact Heq|].
  exact (proj2 (DeriveBufferSize_variable_fits_one_packet _ _ _ _ _ Hfpp Hpos Heq)).
Qed.

Lemma DeriveBufferSize_variable_rate_witness :
  DeriveBufferSize (format 48000 0 0) 400000 half_second = Some (400000, 1)
  /\ DeriveBufferSize (format 8000 0 0) 400000 (Float64_of_Z 3 0) = Some (400000, 1).
Proof.
  split.
  - apply (DeriveBufferSize_variable_rate (format 48000 0 0) 400000 half_second);
      [reflexivity | lia].
  - apply (DeriveBufferSize_variable_rate (format 8000 0 0) 400000 (Float64_of_Z 3 0));
      [reflexivity | lia].
Defined.

(** X3: the packets asked for per read always fit the buffer, even if each
    has the largest size, and one more would not; their number lies between
    the quotients of the two bounds by the packet size, so packets of at
    most [minBufferSize] bytes give at least one packet per read. *)
Theorem outNumPacketsToRead_bounds
        inDesc maxPacketSize seconds outBufferSize outNumPacketsToRead :
  0 < maxPacketSize ->
  DeriveBufferSize inDesc maxPacketSize seconds = Some (outBufferSize, outNumPacketsToRead) ->
  outNumPacketsToRead * maxPacketSize <= outBufferSize
                                      < (outNumPacketsToRead + 1) * maxPacketSize
  /\ minBufferSize / maxPacketSize <= outNumPacketsToRead
                                   <= Z.max maxBufferSize maxPacketSize / maxPacketSize
  /\ (maxPacketSize <= minBufferSize -> 1 <= outNumPacketsToRead).
Proof.
  intros Hpos H.
  pose proof (DeriveBufferSize_at_most _ _ _ _ _ H) as Hup.
  pose proof (DeriveBufferSize_inv _ _ _ _ _ H) as (size & _ & _ & Hb & Hn).
  pose proof (clampBufferSize_lower size maxPacketSize) as Hlow.
  rewrite <- Hb in Hlow.
  assert (minBufferSize / maxPacketSize <= outNumPacketsToRead) as Hmin
      by (rewrite Hn; apply Z.div_le_mono; lia).
  split; [|split; [split|]].
  - rewrite Hn. pose proof (Z.div_mod outBufferSize maxPacketSize ltac:(lia)).
    pose proof (Z.mod_pos_bound outBufferSize maxPacketSize Hpos). lia.
  - exact Hmin.
  - rewrite Hn. apply Z.div_le_mono; lia.
  - intros Hsmall.
    assert (1 <= minBufferSize / maxPacketSize); [|lia].
    apply Z.div_le_lower_bound; lia.
Qed.

Lemma outNumPacketsToRead_bounds_witness :
  DeriveBufferSize aac 768 half_second = Some (16537, 21)
  /\ 21 * 768 <= 16537 < 22 * 768
  /\ 1 <= 21.
Proof.
  split; [vm_compute; reflexivity|].
  destruct (outNumPacketsToRead_bounds aac 768 half_second 16537 21)
    as (Hfit & _ & Hone).
  - lia.
  - vm_compute. reflexivity.
  - split; [exact Hfit | apply Hone; unfold minBufferSize; lia].
Defined.

End SizingBounds.

(* ================================================================== *)
(** * What the callback leaves alone *)
(* ================================================================== *)

Section CallbackFrame.

Lemma nth_error_array_set_other {A : Type} (l : list A) (k j : nat) (v : A) :
  j <> k -> nth_error (array_set l k v) j = nth_error l j.
Proof.
  revert k j. induction l as [|h t IH]; intros [|k] [|j] Hjk; simpl;
    try reflexivity; try contradiction.
  apply IH. intros ->. apply Hjk. reflexivity.
Qed.

Lemma nth_error_update_buffer_other (w : World) (buf j : nat) f :
  j <> buf ->
  nth_error (queueBuffers (update_buffer buf f w)) j = nth_error (queueBuffers w) j.
Proof.
  intros Hj. unfold update_buffer. cbn [queueBuffers].
  destruct (nth_error (queueBuffers w) buf); [|reflexivity].
  apply nth_error_array_set_other. exact Hj.
Qed.

Lemma capacity_update_buffer (w : World) (buf : nat) f :
  (forall b, mAudioDataBytesCapacity (f b) = mAudioDataBytesCapacity b) ->
  option_map mAudioDataBytesCapacity (nth_error (queueBuffers (update_buffer buf f w)) buf)
  = option_map mAudioDataBytesCapacity (nth_error (queueBuffers w) buf).
Proof.
  intros Hf. unfold update_buffer. cbn [queueBuffers].
  destruct (nth_error (queueBuffers w) buf) as [b|] eqn:Hb; [|rewrite Hb; reflexivity].
  rewrite nth_error_array_set
    by (apply nth_error_Some; rewrite Hb; discriminate).
  simpl. rewrite Hf. reflexivity.
Qed.

(** X5: the callback writes to no buffer but the one it was handed, and
    changes neither the number of buffers nor the capacity of its own. *)
Theorem HandleOutputBuffer_other_buffers (w : World) (aq : AudioQueueRef)
        (buf j : AudioQueueBufferRef) :
  (j <> buf ->
   nth_error (queueBuffers (HandleOutputBuffer w aq buf)) j
   = nth_error (queueBuffers w) j)
  /\ List.length (queueBuffers (HandleOutputBuffer w aq buf))
     = List.length (queueBuffers w)
  /\ option_map mAudioDataBytesCapacity
       (nth_error (queueBuffers (HandleOutputBuffer w aq buf)) buf)
     = option_map mAudioDataBytesCapacity (nth_error (queueBuffers w) buf).
Proof.
  destruct (HandleOutputBuffer_frame w aq buf) as (_ & _ & _ & Hlen & _).
  split; [|split; [exact Hlen|]].
  - intros Hj. destruct (mIsRunning (player w)) eqn:Hrun.
    2:{ rewrite (HandleOutputBuffer_stopped_id w aq buf Hrun). reflexivity. }
    destruct (Z_lt_le_dec 0 (rdNumPackets (hd endOfFile (pendingReads w))))
      as [Hpos|Hzero].
    + rewrite (HandleOutputBuffer_refill w aq buf Hrun Hpos). cbn [queueBuffers].
      rewrite !nth_error_update_buffer_other by exact Hj. reflexivity.
    + rewrite (HandleOutputBuffer_stop w aq buf Hrun Hzero). cbn [queueBuffers].
      rewrite !nth_error_update_buffer_other by exact Hj. reflexivity.
  - destruct (mIsRunning (player w)) eqn:Hrun.
    2:{ rewrite (HandleOutputBuffer_stopped_id w aq buf Hrun). reflexivity. }
    destruct (Z_lt_le_dec 0 (rdNumPackets (hd endOfFile (pendingReads w))))
      as [Hpos|Hzero].
    + rewrite (HandleOutputBuffer_refill w aq buf Hrun Hpos). cbn [queueBuffers].
      rewrite !capacity_update_buffer by reflexivity. reflexivity.
    + rewrite (HandleOutputBuffer_stop w aq buf Hrun Hzero). cbn [queueBuffers].
      rewrite !capacity_update_buffer by reflexivity. reflexivity.
Qed.

Lemma HandleOutputBuffer_other_buffers_witness :
  nth_error (queueBuffers (HandleOutputBuffer (initialized pcmLong) 2 0%nat)) 1
  = nth_error (queueBuffers (initialized pcmLong)) 1
  /\ mAudioDataByteSize
       (nth 0 (queueBuffers (HandleOutputBuffer (initialized pcmLong) 2 0%nat))
            {| mAudioDataBytesCapacity := 0; mAudioData := []; mAudioDataByteSize := 0 |})
     = 20.
Proof.
  split; [|vm_compute; reflexivity].
  apply (HandleOutputBuffer_other_buffers (initialized pcmLong) 2 0%nat 1%nat).
  discriminate.
Defined.

(** The fields of the player a callback never writes. *)
Lemma HandleOutputBuffer_config (w : World) (aq : AudioQueueRef)
      (buf : AudioQueueBufferRef) :
  mDataFormat (player (HandleOutputBuffer w aq buf)) = mDataFormat (player w)
  /\ mAudioFile (player (HandleOutputBuffer w aq buf)) = mAudioFile (player w)
  /\ mNumPacketsToRead (player (HandleOutputBuffer w aq buf))
     = mNumPacketsToRead (player w)
  /\ is_NULL (mPacketDescs (player (HandleOutputBuffer w aq buf)))
     = is_NULL (mPacketDescs (player w)).
Proof.
  destruct (mIsRunning (player w)) eqn:Hrun.
  2:{ rewrite (HandleOutputBuffer_stopped_id w aq buf Hrun). repeat split. }
  destruct (Z_lt_le_dec 0 (rdNumPackets (hd endOfFile (pendingReads w))))
    as [Hpos|Hzero].
  - rewrite (HandleOutputBuffer_refill w aq buf Hrun Hpos). cbn [player].
    destruct (mPacketDescs (player w)) eqn:Hd; simpl; rewrite ?Hd; repeat split.
  - rewrite (HandleOutputBuffer_stop w aq buf Hrun Hzero). cbn [player].
    destruct (mPacketDescs (player w)) eqn:Hd; simpl; rewrite ?Hd; repeat split.
Qed.

(** X4: once [mIsRunning] is false no sequence of callbacks changes
    anything, and no sequence of callbacks sets [mIsRunning] again: a
    player found running after callbacks was running before them. *)
Theorem callbacks_after_stop (w : World) (aq : AudioQueueRef)
        (bufs : list AudioQueueBufferRef) :
  (mIsRunning (player w) = false -> callbacks w aq bufs = w)
  /\ (mIsRunning (player (callbacks w aq bufs)) = true ->
      mIsRunning (player w) = true).
Proof.
  assert (forall v, mIsRunning (player v) = false -> callbacks v aq bufs = v) as Hid.
  { induction bufs as [|buf bufs IH]; intros v Hstop; [reflexivity|].
    unfold callbacks in *. cbn [fold_left].
    rewrite (HandleOutputBuffer_stopped_id v aq buf Hstop). apply IH, Hstop. }
  split; [apply Hid|].
  intros Hrun. destruct (mIsRunning (player w)) eqn:Hw; [reflexivity|].
  rewrite (Hid w Hw), Hw in Hrun. discriminate.
Qed.

Lemma callbacks_after_stop_witness :
  mIsRunning (player (initialized pcmShort)) = false
  /\ callbacks (initialized pcmShort) 2 [0; 1; 2; 0]%nat = initialized pcmShort.
Proof.
  split; [vm_compute; reflexivity|].
  apply (callbacks_after_stop (initialized pcmShort) 2 [0; 1; 2; 0]%nat).
  vm_compute. reflexivity.
Defined.

End CallbackFrame.

(* ================================================================== *)
(** * Whole runs *)
(* ================================================================== *)

Section RunFacts.

(** The four ways initialisation can go. *)
Lemma Initialize_open_listed (env : Env) (message : string) :
  resultCodeMessage (envOpenStatus env) = Some message ->
  exists w,
    AQPlayerState_Initialize env (initialWorld env) = Halt Abort w
    /\ trace w = [EvOpenURL (envOpenStatus env); EvStdout message;
                  EvAssertionFailed "false" "PrintResultCodes" 239].
Proof.
  intros Hopen.
  unfold AQPlayerState_Initialize, AQPlayerState_InitAudioFile, PrintResultCodes.
  rewrite Hopen. cbn [andThen]. eexists. split; reflexivity.
Qed.

Lemma Initialize_no_queue (env : Env) :
  resultCodeMessage (envOpenStatus env) = None ->
  envNewOutputStatus env <> noErr ->
  exists w,
    AQPlayerState_Initialize env (initialWorld env) = Halt (Exit 1) w
    /\ trace w = [EvOpenURL (envOpenStatus env); EvNewOutput (envNewOutputStatus env);
                  EvStderr "AudioQueueNewOutput " (envNewOutputStatus env)].
Proof.
  intros Hopen Hnew.
  unfold AQPlayerState_Initialize, AQPlayerState_InitAudioFile, PrintResultCodes,
    AQPlayerState_InitOutputQueue, CheckError.
  rewrite Hopen. cbn [andThen].
  destruct (Z.eqb_spec (envNewOutputStatus env) noErr) as [|_]; [contradiction|].
  cbn [andThen]. eexists. split; reflexivity.
Qed.

Lemma Initialize_no_sizes (env : Env) :
  resultCodeMessage (envOpenStatus env) = None ->
  envNewOutputStatus env = noErr ->
  DeriveBufferSize (envDataFormat env) (envMaxPacketSize env) half_second = None ->
  exists w,
    AQPlayerState_Initialize env (initialWorld env) = Halt Undefined w
    /\ trace w = [EvOpenURL (envOpenStatus env); EvNewOutput noErr].
Proof.
  intros Hopen Hnew Hsizes.
  unfold AQPlayerState_Initialize, AQPlayerState_InitAudioFile, PrintResultCodes,
    AQPlayerState_InitOutputQueue, CheckError, AQPlayerState_InitSizes.
  rewrite Hopen, Hnew, Z.eqb_refl. cbn [andThen].
  unfold AQPlayerState_InitBasicDescription.
  cbn [player set_player log mDataFormat set_file_format_queue].
  rewrite Hsizes. cbn [andThen]. eexists. split; reflexivity.
Qed.

(** When the file opens without a listed error, the queue is created and
    the sizes are defined, initialisation primes from [readyToPrime env]. *)
Lemma Initialize_ready (env : Env) (outBufferSize outNumPacketsToRead : Z) :
  resultCodeMessage (envOpenStatus env) = None ->
  envNewOutputStatus env = noErr ->
  DeriveBufferSize (envDataFormat env) (envMaxPacketSize env) half_second
  = Some (outBufferSize, outNumPacketsToRead) ->
  AQPlayerState_Initialize env (initialWorld env)
  = Continue (AQPlayerState_SetGain
                (AQPlayerState_AllocateBuffersAndPrime (readyToPrime env)))
  /\ mDataFormat (player (readyToPrime env)) = envDataFormat env
  /\ mQueue (player (readyToPrime env)) = envQueue env
  /\ bufferByteSize (player (readyToPrime env)) = outBufferSize
  /\ mNumPacketsToRead (player (readyToPrime env)) = outNumPacketsToRead
  /\ mBuffers (player (readyToPrime env)) = [0; 0; 0]%nat
  /\ is_NULL (mPacketDescs (player (readyToPrime env)))
     = negb (isFormatVBR (envDataFormat env))
  /\ mIsRunning (player (readyToPrime env)) = true
  /\ queueBuffers (readyToPrime env) = []
  /\ enqueued (readyToPrime env) = []
  /\ pendingReads (readyToPrime env) = envReads env
  /\ trace (readyToPrime env)
     = [EvOpenURL (envOpenStatus env); EvNewOutput noErr]
         ++ (if envHasMagicCookie env then [EvSetMagicCookie] else []).
Proof.
  intros Hopen Hnew Hsizes.
  unfold readyToPrime.
  unfold AQPlayerState_Initialize, AQPlayerState_InitAudioFile, PrintResultCodes,
    AQPlayerState_InitOutputQueue, CheckError, AQPlayerState_InitSizes.
  rewrite Hopen, Hnew, Z.eqb_refl. cbn [andThen].
  unfold AQPlayerState_InitBasicDescription.
  cbn [player set_player log mDataFormat set_file_format_queue].
  rewrite Hsizes. cbn [andThen finalWorld].
  split; [reflexivity|].
  unfold AQPlayerState_MagicCookie, AQPlayerState_AllocatePacketDescriptionsArray.
  cbn [player set_player log mDataFormat set_file_format_queue set_sizes].
  destruct (isFormatVBR (envDataFormat env)) eqn:Hvbr;
    destruct (envHasMagicCookie env); cbn; repeat split.
Qed.

(** A run that gets through initialisation with a queue that starts: the
    run loop ends in some world, and [main] returns 0 from that world once
    the queue has drained and been disposed of. *)
Lemma main_normal_run (env : Env) (w : World) :
  AQPlayerState_Initialize env (initialWorld env) = Continue w ->
  envStartStatus env = noErr ->
  exists stopped,
    runUntilStopped (S (List.length (pendingReads w))) (log (EvStart noErr) w)
    = Some stopped
    /\ mIsRunning (player stopped) = false
    /\ main env
       = Halt (Exit 0)
           (AQPlayerState_CleanUp
              (drainCallbacks (List.length (enqueued stopped)) stopped)).
Proof.
  intros Hinit Hstart.
  assert (mIsRunning (player w) = true -> enqueued w <> []) as Hqueue.
  { destruct (Initialize_continue env w Hinit) as (before & bs & n & Hw & _).
    pose proof (primed_running_has_queue before) as Hprimed.
    clear Hinit. revert Hw Hprimed.
    generalize (AQPlayerState_AllocateBuffersAndPrime before).
    intros primed -> Hprimed. exact Hprimed. }
  destruct (runUntilStopped_stops
              (S (List.length (pendingReads (log (EvStart noErr) w))))
              (log (EvStart noErr) w) (Nat.lt_succ_diag_r _) Hqueue)
    as (stopped & added & Hloop & Hstop & _).
  exists stopped. split; [exact Hloop|]. split; [exact Hstop|].
  unfold main. rewrite Hinit. cbn [andThen]. unfold CheckError.
  rewrite Hstart, Z.eqb_refl. cbn [andThen].
  rewrite Hloop. reflexivity.
Qed.

(** ** Properties kept from priming to the end of a run *)

Section Kept.

Variable P : World -> Prop.

Hypothesis P_callback :
  forall v aq buf, P v -> P (HandleOutputBuffer v aq buf).
Hypothesis P_cursor :
  forall v, P v -> P (set_player (set_mCurrentPacket 0) v).
Hypothesis P_allocate :
  forall v k, P v -> P (AudioQueueAllocateBuffer v (bufferByteSize (player v)) k).
Hypothesis P_log :
  forall v e, callbackEvent e = false -> isAllocate e = false -> P v -> P (log e v).
Hypothesis P_dequeue :
  forall v rest,
    P v ->
    P {| player := player v; queueBuffers := queueBuffers v; enqueued := rest;
         pendingReads := pendingReads v; trace := trace v |}.

(** Priming resets the cursor before its loop: the lemmas named [_from]
    start from the world with the cursor reset, the others use [P_cursor]. *)
Lemma kept_by_priming_from (v : World) :
  P (set_player (set_mCurrentPacket 0) v) ->
  P (AQPlayerState_AllocateBuffersAndPrime v).
Proof.
  intros Hv. unfold AQPlayerState_AllocateBuffersAndPrime.
  generalize (seq 0 kNumberBuffers). intros ks.
  revert Hv.
  generalize (set_player (set_mCurrentPacket 0) v). clear v.
  induction ks as [|k ks IH]; intros v Hv; [exact Hv|].
  cbn [fold_left]. apply IH. unfold primeBuffer.
  apply P_callback, P_allocate, Hv.
Qed.

Lemma kept_by_priming (v : World) :
  P v -> P (AQPlayerState_AllocateBuffersAndPrime v).
Proof. intros Hv. apply kept_by_priming_from, P_cursor, Hv. Qed.

Lemma kept_by_callbacks (bufs : list AudioQueueBufferRef) (v : World)
      (aq : AudioQueueRef) :
  P v -> P (callbacks v aq bufs).
Proof.
  revert v. induction bufs as [|buf bufs IH]; intros v Hv; [exact Hv|].
  apply (IH (HandleOutputBuffer v aq buf)), P_callback, Hv.
Qed.

Lemma kept_by_delivery (v v' : World) :
  P v -> deliverCallback v = Some v' -> P v'.
Proof.
  unfold deliverCallback. intros Hv.
  destruct (enqueued v) as [|buf rest]; [discriminate|].
  intros [= <-]. apply P_callback, P_dequeue, Hv.
Qed.

Lemma kept_by_run_loop (fuel : nat) (v v' : World) :
  P v -> runUntilStopped fuel v = Some v' -> P v'.
Proof.
  revert v. induction fuel as [|fuel IH]; intros v Hv; cbn [runUntilStopped].
  - destruct (negb (mIsRunning (player v))); [|discriminate].
    intros [= <-]. exact Hv.
  - destruct (negb (mIsRunning (player v))); [intros [= <-]; exact Hv|].
    destruct (deliverCallback v) as [v1|] eqn:Hd; [|discriminate].
    apply IH. exact (kept_by_delivery v v1 Hv Hd).
Qed.

Lemma kept_by_drain (n : nat) (v : World) : P v -> P (drainCallbacks n v).
Proof.
  revert v. induction n as [|n IH]; intros v Hv; [exact Hv|].
  cbn [drainCallbacks]. destruct (deliverCallback v) as [v1|] eqn:Hd; [|exact Hv].
  apply IH. exact (kept_by_delivery v v1 Hv Hd).
Qed.

(** What holds when priming starts holds when initialisation is over, and
    in the world [main] returns 0 from. *)
Lemma kept_by_Initialize_from (env : Env) (w : World) :
  AQPlayerState_Initialize env (initialWorld env) = Continue w ->
  P (set_player (set_mCurrentPacket 0) (readyToPrime env)) -> P w.
Proof.
  intros Hinit Hready.
  destruct (Initialize_continue env w Hinit) as (_ & bs & n & _ & Hopen & Hnew & Hsizes & _).
  destruct (Initialize_ready env bs n Hopen Hnew Hsizes) as (Heq & _).
  rewrite Heq in Hinit. injection Hinit as <-.
  unfold AQPlayerState_SetGain. apply P_log; [reflexivity | reflexivity |].
  apply kept_by_priming_from, Hready.
Qed.

Lemma kept_by_Initialize (env : Env) (w : World) :
  AQPlayerState_Initialize env (initialWorld env) = Continue w ->
  P (readyToPrime env) -> P w.
Proof.
  intros Hinit Hready. apply (kept_by_Initialize_from env w Hinit), P_cursor, Hready.
Qed.

Lemma kept_by_main_from (env : Env) (w : World) :
  main env = Halt (Exit 0) w ->
  P (set_player (set_mCurrentPacket 0) (readyToPrime env)) -> P w.
Proof.
  intros Hmain Hready.
  destruct (AQPlayerState_Initialize env (initialWorld env)) as [w0|t w0] eqn:Hinit.
  2:{ unfold main in Hmain. rewrite Hinit in Hmain. cbn [andThen] in Hmain.
      injection Hmain as Ht _. subst t.
      exfalso. revert Hinit.
      unfold AQPlayerState_Initialize, AQPlayerState_InitAudioFile, PrintResultCodes,
        AQPlayerState_InitOutputQueue, CheckError, AQPlayerState_InitSizes.
      destruct (resultCodeMessage (envOpenStatus env)); [discriminate|].
      cbn [andThen].
      destruct (envNewOutputStatus env =? noErr); [|discriminate].
      cbn [andThen]. unfold AQPlayerState_InitBasicDescription.
      cbn [player set_player log mDataFormat set_file_format_queue].
      destruct (DeriveBufferSize (envDataFormat env) (envMaxPacketSize env) half_second)
        as [[bs n]|]; discriminate. }
  destruct (Z.eq_dec (envStartStatus env) noErr) as [Hstart|Hstart].
  2:{ destruct (main_after_Initialize env w0 Hinit) as [Hfail _].
      rewrite (Hfail Hstart) in Hmain. discriminate. }
  destruct (main_normal_run env w0 Hinit Hstart) as (stopped & Hloop & _ & Heq).
  rewrite Heq in Hmain. injection Hmain as <-.
  unfold AQPlayerState_CleanUp.
  apply P_log; [reflexivity | reflexivity |].
  apply P_log; [reflexivity | reflexivity |].
  apply kept_by_drain.
  apply (kept_by_run_loop _ _ _ (P_log _ (EvStart noErr) eq_refl eq_refl
                                       (kept_by_Initialize_from env w0 Hinit Hready))
                          Hloop).
Qed.

Lemma kept_by_main (env : Env) (w : World) :
  main env = Halt (Exit 0) w ->
  P (readyToPrime env) -> P w.
Proof.
  intros Hmain Hready. apply (kept_by_main_from env w Hmain), P_cursor, Hready.
Qed.

(** The same for every ending of a run whose initialisation succeeded. *)
Lemma kept_by_halt (env : Env) (t : Termination) (w : World)
      (outBufferSize outNumPacketsToRead : Z) :
  main env = Halt t w ->
  resultCodeMessage (envOpenStatus env) = None ->
  envNewOutputStatus env = noErr ->
  DeriveBufferSize (envDataFormat env) (envMaxPacketSize env) half_second
  = Some (outBufferSize, outNumPacketsToRead) ->
  P (readyToPrime env) -> P w.
Proof.
  intros Hmain Hopen Hnew Hsizes Hready.
  destruct (Initialize_ready env _ _ Hopen Hnew Hsizes) as (Hinit & _).
  destruct (main_after_Initialize env _ Hinit) as [Hfail Hok].
  destruct (Z.eq_dec (envStartStatus env) noErr) as [Hstart|Hstart].
  - destruct (Hok Hstart) as (w' & added & Hmain' & _).
    rewrite Hmain in Hmain'. injection Hmain' as -> ->.
    exact (kept_by_main env w' Hmain Hready).
  - rewrite (Hfail Hstart) in Hmain. injection Hmain as _ <-.
    apply P_log; [reflexivity | reflexivity |].
    apply P_log; [reflexivity | reflexivity |].
    exact (kept_by_Initialize env _ Hinit Hready).
Qed.

End Kept.

(** ** How a run ends *)

(** X9: how [main] ends is decided by the statuses of [AudioFileOpenURL],
    [AudioQueueNewOutput] and [AudioQueueStart] and by whether the sizes are
    defined; [main] always ends, and what the file holds plays no part. *)
Theorem main_termination (env : Env) :
  termination (main env) = Some (expectedTermination env).
Proof.
  unfold expectedTermination.
  destruct (resultCodeMessage (envOpenStatus env)) as [message|] eqn:Hopen.
  { destruct (Initialize_open_listed env message Hopen) as (w & Hinit & _).
    unfold main. rewrite Hinit. reflexivity. }
  destruct (Z.eqb_spec (envNewOutputStatus env) noErr) as [Hnew|Hnew].
  2:{ destruct (Initialize_no_queue env Hopen Hnew) as (w & Hinit & _).
      unfold main. rewrite Hinit. reflexivity. }
  destruct (DeriveBufferSize (envDataFormat env) (envMaxPacketSize env) half_second)
    as [[bs n]|] eqn:Hsizes.
  2:{ destruct (Initialize_no_sizes env Hopen Hnew Hsizes) as (w & Hinit & _).
      unfold main. rewrite Hinit. reflexivity. }
  destruct (Initialize_ready env bs n Hopen Hnew Hsizes) as (Hinit & _).
  destruct (main_after_Initialize env _ Hinit) as [Hfail Hok].
  destruct (Z.eqb_spec (envStartStatus env) noErr) as [Hstart|Hstart].
  - destruct (Hok Hstart) as (w & added & -> & _). reflexivity.
  - rewrite (Hfail Hstart). reflexivity.
Qed.

(** A run that returns 0 got through initialisation and started the queue;
    it ends with the player stopped and the queue empty. *)
Lemma main_exit_0_inv (env : Env) (w : World) :
  main env = Halt (Exit 0) w ->
  exists outBufferSize outNumPacketsToRead,
    resultCodeMessage (envOpenStatus env) = None
    /\ envNewOutputStatus env = noErr
    /\ DeriveBufferSize (envDataFormat env) (envMaxPacketSize env) half_second
       = Some (outBufferSize, outNumPacketsToRead)
    /\ envStartStatus env = noErr
    /\ mIsRunning (player w) = false
    /\ enqueued w = [].
Proof.
  intros Hmain.
  destruct (resultCodeMessage (envOpenStatus env)) as [message|] eqn:Hopen.
  { destruct (Initialize_open_listed env message Hopen) as (w' & Hinit & _).
    unfold main in Hmain. rewrite Hinit in Hmain. discriminate. }
  destruct (Z.eq_dec (envNewOutputStatus env) noErr) as [Hnew|Hnew].
  2:{ destruct (Initialize_no_queue env Hopen Hnew) as (w' & Hinit & _).
      unfold main in Hmain. rewrite Hinit in Hmain. discriminate. }
  destruct (DeriveBufferSize (envDataFormat env) (envMaxPacketSize env) half_second)
    as [[bs n]|] eqn:Hsizes.
  2:{ destruct (Initialize_no_sizes env Hopen Hnew Hsizes) as (w' & Hinit & _).
      unfold main in Hmain. rewrite Hinit in Hmain. discriminate. }
  destruct (Initialize_ready env bs n Hopen Hnew Hsizes) as (Hinit & _).
  destruct (main_after_Initialize env _ Hinit) as [Hfail Hok].
  destruct (Z.eq_dec (envStartStatus env) noErr) as [Hstart|Hstart].
  2:{ rewrite (Hfail Hstart) in Hmain. discriminate. }
  exists bs, n. repeat (split; [reflexivity || assumption|]).
  destruct (Hok Hstart) as (w' & added & Hmain' & Hstop & Hq & _).
  rewrite Hmain in Hmain'. injection Hmain' as <-. split; assumption.
Qed.

(** ** The queue is stopped once *)

Lemma none_app (kind : Event -> bool) (l1 l2 : list Event) :
  none kind (l1 ++ l2) = none kind l1 && none kind l2.
Proof. unfold none. apply forallb_app. Qed.

Lemma stoppedOnce_log (v : World) (e : Event) :
  callbackEvent e = false -> stoppedOnce v -> stoppedOnce (log e v).
Proof.
  intros He. unfold stoppedOnce. cbn [player log trace].
  assert (isStop e = false) as Hs by (destruct e; try reflexivity; discriminate).
  destruct (mIsRunning (player v)).
  - intros Hnone. rewrite none_app, Hnone. unfold none. cbn [forallb].
    rewrite Hs. reflexivity.
  - intros (before & after & aq & Ht & Hb & Ha).
    exists before, (after ++ [e]), aq. rewrite Ht, <- app_assoc.
    split; [reflexivity|]. split; [exact Hb|].
    rewrite none_app, Ha. unfold none. cbn [forallb]. rewrite He. reflexivity.
Qed.

Lemma stoppedOnce_callback (v : World) (aq : AudioQueueRef)
      (buf : AudioQueueBufferRef) :
  stoppedOnce v -> stoppedOnce (HandleOutputBuffer v aq buf).
Proof.
  intros Hv. destruct (mIsRunning (player v)) eqn:Hrun.
  2:{ rewrite (HandleOutputBuffer_stopped_id v aq buf Hrun). exact Hv. }
  unfold stoppedOnce in Hv. rewrite Hrun in Hv.
  destruct (Z_lt_le_dec 0 (rdNumPackets (hd endOfFile (pendingReads v))))
    as [Hpos|Hzero].
  - rewrite (HandleOutputBuffer_refill v aq buf Hrun Hpos).
    unfold stoppedOnce. cbn [player trace].
    assert (forall d, mIsRunning (set_mCurrentPacket d
              match mPacketDescs (player v) with
              | Some _ => set_mPacketDescs
                            (Some (rdDescs (hd endOfFile (pendingReads v)))) (player v)
              | None => player v
              end) = true) as ->.
    { intros d. destruct (mPacketDescs (player v)); exact Hrun. }
    rewrite none_app, Hv. reflexivity.
  - rewrite (HandleOutputBuffer_stop v aq buf Hrun Hzero).
    unfold stoppedOnce. cbn [player trace].
    assert (mIsRunning (set_mIsRunning false
              match mPacketDescs (player v) with
              | Some _ => set_mPacketDescs
                            (Some (rdDescs (hd endOfFile (pendingReads v)))) (player v)
              | None => player v
              end) = false) as -> by reflexivity.
    exists (trace v ++ [readRequest v buf]), [], aq.
    rewrite <- app_assoc. split; [reflexivity|].
    split; [|reflexivity]. rewrite none_app, Hv. reflexivity.
Qed.

(** X8: a run that returns 0 has called [AudioQueueStop] exactly once, with
    [inImmediate = false], and after that call no callback has read from
    the file, enqueued a buffer or stopped the queue again. *)
Theorem main_stops_queue_once (env : Env) (w : World) :
  main env = Halt (Exit 0) w ->
  exists before after aq,
    trace w = before ++ EvStop aq false :: after
    /\ none isStop before = true
    /\ none callbackEvent after = true.
Proof.
  intros Hmain.
  destruct (main_exit_0_inv env w Hmain)
    as (bs & n & Hopen & Hnew & Hsizes & _ & Hstop & _).
  assert (stoppedOnce w) as Hw.
  { apply (kept_by_main stoppedOnce) with (env := env).
    - exact stoppedOnce_callback.
    - intros v Hv. exact Hv.
    - intros v k Hv.
      exact (stoppedOnce_log v (EvAllocateBuffer (bufferByteSize (player v))
                                   (List.length (queueBuffers v)))
                             eq_refl Hv).
    - intros v e He _ Hv. exact (stoppedOnce_log v e He Hv).
    - intros v rest Hv. exact Hv.
    - exact Hmain.
    - destruct (Initialize_ready env bs n Hopen Hnew Hsizes)
        as (_ & _ & _ & _ & _ & _ & _ & Hrun & _ & _ & _ & Ht).
      unfold stoppedOnce. rewrite Hrun, Ht.
      destruct (envHasMagicCookie env); reflexivity. }
  unfold stoppedOnce in Hw. rewrite Hstop in Hw. exact Hw.
Qed.

Lemma main_stops_queue_once_witness :
  main pcmLong = Halt (Exit 0) (finalWorld (main pcmLong))
  /\ exists before after aq,
       trace (finalWorld (main pcmLong)) = before ++ EvStop aq false :: after
       /\ none isStop before = true
       /\ none callbackEvent after = true.
Proof.
  split; [vm_compute; reflexivity|].
  apply (main_stops_queue_once pcmLong). vm_compute. reflexivity.
Defined.

(** ** The order of the calls *)

Lemma forallb_weaken (A : Type) (f g : A -> bool) (l : list A) :
  (forall x, f x = true -> g x = true) ->
  forallb f l = true -> forallb g l = true.
Proof.
  intros Hfg. induction l as [|x l IH]; [reflexivity|].
  cbn [forallb]. intros [Hx Hl]%andb_prop. rewrite (Hfg x Hx), (IH Hl). reflexivity.
Qed.

(** Priming adds allocations and callback events to the trace, nothing else. *)
Lemma AllocateBuffersAndPrime_added (v : World) :
  exists priming,
    trace (AQPlayerState_AllocateBuffersAndPrime v) = trace v ++ priming
    /\ forallb (fun e => callbackEvent e || isAllocate e) priming = true.
Proof.
  apply (kept_by_priming
           (fun u => exists priming,
                trace u = trace v ++ priming
                /\ forallb (fun e => callbackEvent e || isAllocate e) priming = true)).
  - intros u aq buf (priming & Hu & Hp).
    destruct (HandleOutputBuffer_frame u aq buf) as (_ & _ & _ & _ & added & Ht & Ha).
    exists (priming ++ added). rewrite Ht, Hu, <- app_assoc. split; [reflexivity|].
    rewrite forallb_app, Hp.
    apply (forallb_weaken _ callbackEvent); [|exact Ha].
    intros e ->. reflexivity.
  - intros u Hu. exact Hu.
  - intros u k (priming & Hu & Hp).
    exists (priming ++ [EvAllocateBuffer (bufferByteSize (player u))
                                         (List.length (queueBuffers u))]).
    cbn [AudioQueueAllocateBuffer log trace]. rewrite Hu, <- app_assoc.
    split; [reflexivity|]. rewrite forallb_app, Hp. reflexivity.
  - exists []. rewrite app_nil_r. split; reflexivity.
Qed.

(** The five ways [main] ends, each with the calls it has made, in order. *)
Lemma main_cases (env : Env) :
  let opened := [EvOpenURL (envOpenStatus env); EvNewOutput noErr]
                  ++ (if envHasMagicCookie env then [EvSetMagicCookie] else []) in
  (exists message w,
      resultCodeMessage (envOpenStatus env) = Some message
      /\ main env = Halt Abort w
      /\ trace w = [EvOpenURL (envOpenStatus env); EvStdout message;
                    EvAssertionFailed "false" "PrintResultCodes" 239])
  \/ (exists w,
         envNewOutputStatus env <> noErr
         /\ main env = Halt (Exit 1) w
         /\ trace w = [EvOpenURL (envOpenStatus env);
                       EvNewOutput (envNewOutputStatus env);
                       EvStderr "AudioQueueNewOutput " (envNewOutputStatus env)])
  \/ (exists w,
         main env = Halt Undefined w
         /\ trace w = [EvOpenURL (envOpenStatus env); EvNewOutput noErr])
  \/ (exists w priming,
         envNewOutputStatus env = noErr
         /\ envStartStatus env <> noErr
         /\ main env = Halt (Exit 1) w
         /\ forallb (fun e => callbackEvent e || isAllocate e) priming = true
         /\ trace w = opened ++ priming
                        ++ [EvSetVolume; EvStart (envStartStatus env);
                            EvStderr "AudioQueueStart" (envStartStatus env)])
  \/ (exists w priming playing,
         main env = Halt (Exit 0) w
         /\ forallb (fun e => callbackEvent e || isAllocate e) priming = true
         /\ forallb callbackEvent playing = true
         /\ trace w = opened ++ priming ++ [EvSetVolume; EvStart noErr]
                        ++ playing ++ [EvDispose true; EvFileClose]).
Proof.
  intros opened.
  destruct (resultCodeMessage (envOpenStatus env)) as [message|] eqn:Hopen.
  { left. destruct (Initialize_open_listed env message Hopen) as (w & Hinit & Ht).
    exists message, w. unfold main. rewrite Hinit. repeat split. exact Ht. }
  right.
  destruct (Z.eq_dec (envNewOutputStatus env) noErr) as [Hnew|Hnew].
  2:{ left. destruct (Initialize_no_queue env Hopen Hnew) as (w & Hinit & Ht).
      exists w. unfold main. rewrite Hinit. repeat split; assumption. }
  right.
  destruct (DeriveBufferSize (envDataFormat env) (envMaxPacketSize env) half_second)
    as [[bs n]|] eqn:Hsizes.
  2:{ left. destruct (Initialize_no_sizes env Hopen Hnew Hsizes) as (w & Hinit & Ht).
      exists w. unfold main. rewrite Hinit. repeat split. exact Ht. }
  right.
  destruct (Initialize_ready env bs n Hopen Hnew Hsizes)
    as (Hinit & _ & _ & _ & _ & _ & _ & _ & _ & _ & _ & Hready).
  destruct (AllocateBuffersAndPrime_added (readyToPrime env)) as (priming & Hprimed & Hp).
  destruct (main_after_Initialize env _ Hinit) as [Hfail Hok].
  assert (trace (AQPlayerState_SetGain
                   (AQPlayerState_AllocateBuffersAndPrime (readyToPrime env)))
          = opened ++ priming ++ [EvSetVolume]) as Hgain.
  { unfold AQPlayerState_SetGain. cbn [log trace].
    rewrite Hprimed, Hready, <- app_assoc. reflexivity. }
  destruct (Z.eq_dec (envStartStatus env) noErr) as [Hstart|Hstart].
  - right. destruct (Hok Hstart) as (w & playing & Hmain & _ & _ & Hplaying & Ht).
    exists w, priming, playing. repeat (split; [assumption|]).
    rewrite Ht, Hgain, <- !app_assoc. reflexivity.
  - left. eexists. exists priming. repeat (split; [eassumption|]).
    split; [exact (Hfail Hstart)|]. split; [exact Hp|].
    cbn [log trace]. rewrite Hgain, <- !app_assoc. reflexivity.
Qed.

(** X10: a run that returns 0 has made its calls in this order: the file is
    opened and the queue created; the magic cookie, if the file has one, is
    set; the buffers are allocated and primed; the volume is set; the queue
    is started; callbacks run; the queue is disposed of and the file closed.
    Nothing is read or enqueued before the queue exists or after it is
    disposed of. *)
Theorem main_call_order (env : Env) (w : World) :
  main env = Halt (Exit 0) w ->
  exists priming playing,
    trace w = [EvOpenURL (envOpenStatus env); EvNewOutput noErr]
                ++ (if envHasMagicCookie env then [EvSetMagicCookie] else [])
                ++ priming ++ [EvSetVolume; EvStart noErr]
                ++ playing ++ [EvDispose true; EvFileClose]
    /\ forallb (fun e => callbackEvent e || isAllocate e) priming = true
    /\ forallb callbackEvent playing = true.
Proof.
  intros Hmain.
  destruct (main_cases env)
    as [(m & w' & _ & Hmain' & _)
       |[(w' & _ & Hmain' & _)
        |[(w' & Hmain' & _)
         |[(w' & priming & _ & _ & Hmain' & _)
          |(w' & priming & playing & Hmain' & Hp & Hq & Ht)]]]];
    rewrite Hmain in Hmain'; try discriminate.
  injection Hmain' as <-. exists priming, playing.
  split; [|split; assumption]. rewrite Ht, <- !app_assoc. reflexivity.
Qed.

Lemma main_call_order_witness :
  main aacLong = Halt (Exit 0) (finalWorld (main aacLong))
  /\ exists priming playing,
       trace (finalWorld (main aacLong))
       = [EvOpenURL (envOpenStatus aacLong); EvNewOutput noErr]
           ++ (if envHasMagicCookie aacLong then [EvSetMagicCookie] else [])
           ++ priming ++ [EvSetVolume; EvStart noErr]
           ++ playing ++ [EvDispose true; EvFileClose]
       /\ forallb (fun e => callbackEvent e || isAllocate e) priming = true
       /\ forallb callbackEvent playing = true.
Proof.
  split; [vm_compute; reflexivity|].
  apply (main_call_order aacLong). vm_compute. reflexivity.
Defined.

(** X16: whenever [main] ends otherwise than by returning 0, it has neither
    disposed of the audio queue nor closed the audio file: [exit] and
    [assert] leave before [AQPlayerState_CleanUp]. *)
Theorem main_failure_skips_cleanup (env : Env) (t : Termination) (w : World) :
  main env = Halt t w ->
  t <> Exit 0 ->
  none isCleanup (trace w) = true.
Proof.
  intros Hmain Ht.
  destruct (main_cases env)
    as [(m & w' & _ & Hmain' & Htr)
       |[(w' & _ & Hmain' & Htr)
        |[(w' & Hmain' & Htr)
         |[(w' & priming & _ & _ & Hmain' & Hp & Htr)
          |(w' & priming & playing & Hmain' & _)]]]];
    rewrite Hmain in Hmain'; injection Hmain' as -> ->;
    try (rewrite Htr; reflexivity); [|congruence].
  rewrite Htr, !none_app.
  assert (none isCleanup priming = true) as ->.
  { apply (forallb_weaken _ (fun e => callbackEvent e || isAllocate e)); [|exact Hp].
    intros [] He; try reflexivity; discriminate. }
  destruct (envHasMagicCookie env); reflexivity.
Qed.

Lemma main_failure_skips_cleanup_witness :
  main noStart = Halt (Exit 1) (finalWorld (main noStart))
  /\ Exit 1 <> Exit 0
  /\ none isCleanup (trace (finalWorld (main noStart))) = true.
Proof.
  split; [vm_compute; reflexivity|]. split; [discriminate|].
  apply (main_failure_skips_cleanup noStart (Exit 1)); [vm_compute; reflexivity|].
  discriminate.
Defined.

(** ** What a run writes to [stderr] *)

Lemma stderrOutput_app (l1 l2 : list Event) :
  stderrOutput (l1 ++ l2) = stderrOutput l1 ++ stderrOutput l2.
Proof. apply flat_map_app. Qed.

(** Allocations and callbacks write nothing to [stderr]. *)
Lemma stderrOutput_priming (events : list Event) :
  forallb (fun e => callbackEvent e || isAllocate e) events = true ->
  stderrOutput events = [].
Proof.
  induction events as [|e events IH]; [reflexivity|].
  cbn [forallb]. intros [He Hl]%andb_prop. unfold stderrOutput. cbn [flat_map].
  fold (stderrOutput events). rewrite (IH Hl).
  destruct e; try reflexivity; discriminate.
Qed.

Lemma stderrOutput_callbacks (events : list Event) :
  forallb callbackEvent events = true -> stderrOutput events = [].
Proof.
  intros Hc. apply stderrOutput_priming.
  apply (forallb_weaken _ callbackEvent); [|exact Hc]. intros e ->. reflexivity.
Qed.

(** X17: what a run writes to [stderr].  An exit with status 1 has written
    exactly one line, the one [CheckError] formats for the call that failed
    ([AudioQueueNewOutput] or [AudioQueueStart]) and its status; a run that
    ends at [assert(false)] has written the failure message of that
    assertion and nothing else; a run that returns 0, or that runs into
    undefined behaviour, has written nothing to [stderr]. *)
Theorem main_stderr (env : Env) (t : Termination) (w : World) :
  main env = Halt t w ->
  stderrOutput (trace w)
  = match t with
    | Exit 1 =>
        if envNewOutputStatus env =? noErr
        then [CheckErrorLine (stderrLine "AudioQueueStart" (envStartStatus env))]
        else [CheckErrorLine
                (stderrLine "AudioQueueNewOutput " (envNewOutputStatus env))]
    | Abort => [AssertionMessage "false" "PrintResultCodes" 239]
    | _ => []
    end.
Proof.
  intros Hmain.
  destruct (main_cases env)
    as [(m & w' & _ & Hmain' & Htr)
       |[(w' & Hnew & Hmain' & Htr)
        |[(w' & Hmain' & Htr)
         |[(w' & priming & Hnew & _ & Hmain' & Hp & Htr)
          |(w' & priming & playing & Hmain' & Hp & Hq & Htr)]]]];
    rewrite Hmain in Hmain'; injection Hmain' as -> ->; rewrite Htr.
  - reflexivity.
  - apply Z.eqb_neq in Hnew. rewrite Hnew. reflexivity.
  - reflexivity.
  - rewrite Hnew, Z.eqb_refl, !stderrOutput_app, (stderrOutput_priming priming Hp).
    destruct (envHasMagicCookie env); reflexivity.
  - rewrite !stderrOutput_app, (stderrOutput_priming priming Hp),
      (stderrOutput_callbacks playing Hq).
    destruct (envHasMagicCookie env); reflexivity.
Qed.

Lemma main_stderr_witness :
  (main noQueue = Halt (Exit 1) (finalWorld (main noQueue))
   /\ stderrOutput (trace (finalWorld (main noQueue)))
      = [CheckErrorLine ("Error: AudioQueueNewOutput  ('fmt?')"
                           ++ String (ascii_of_nat 10) EmptyString)%string])
  /\ (main noFile = Halt Abort (finalWorld (main noFile))
      /\ stderrOutput (trace (finalWorld (main noFile)))
         = [AssertionMessage "false" "PrintResultCodes" 239]).
Proof.
  split; (split; [vm_compute; reflexivity|]).
  - rewrite (main_stderr noQueue (Exit 1)); [|vm_compute; reflexivity].
    vm_compute. reflexivity.
  - rewrite (main_stderr noFile Abort); [|vm_compute; reflexivity].
    reflexivity.
Defined.

(** ** A failure to open the file that is not reported *)





(** ** What the reads ask for *)

Lemma readsAskFor_app (numBytes numPackets : Z) (wantDescs : bool)
      (l1 l2 : list Event) :
  readsAskFor numBytes numPackets wantDescs (l1 ++ l2)
  = readsAskFor numBytes numPackets wantDescs l1
    && readsAskFor numBytes numPackets wantDescs l2.
Proof. unfold readsAskFor. apply forallb_app. Qed.

Lemma readsAskFor_log (numBytes numPackets : Z) (wantDescs : bool)
      (v : World) (e : Event) :
  callbackEvent e = false ->
  readsAskFor numBytes numPackets wantDescs (trace v) = true ->
  readsAskFor numBytes numPackets wantDescs (trace (log e v)) = true.
Proof.
  intros He Hv. cbn [log trace]. rewrite readsAskFor_app, Hv.
  destruct e; try reflexivity; discriminate.
Qed.

(** The read of a callback asks for what the player state holds. *)
Lemma readsAskFor_callback (v : World) (aq : AudioQueueRef)
      (buf : AudioQueueBufferRef) (wantDescs : bool) :
  is_NULL (mPacketDescs (player v)) = negb wantDescs ->
  readsAskFor (bufferByteSize (player v)) (mNumPacketsToRead (player v)) wantDescs
              (trace v) = true ->
  readsAskFor (bufferByteSize (player v)) (mNumPacketsToRead (player v)) wantDescs
              (trace (HandleOutputBuffer v aq buf)) = true.
Proof.
  intros Hd Hv.
  assert (readsAskFor (bufferByteSize (player v)) (mNumPacketsToRead (player v))
                      wantDescs [readRequest v buf] = true) as Hread.
  { unfold readsAskFor, readRequest. cbn [forallb negb andb].
    rewrite !Z.eqb_refl, Hd, negb_involutive, eqb_reflx. reflexivity. }
  destruct (mIsRunning (player v)) eqn:Hrun.
  2:{ rewrite (HandleOutputBuffer_stopped_id v aq buf Hrun). exact Hv. }
  destruct (Z_lt_le_dec 0 (rdNumPackets (hd endOfFile (pendingReads v))))
    as [Hpos|Hzero].
  - rewrite (HandleOutputBuffer_refill v aq buf Hrun Hpos). cbn [trace].
    rewrite readsAskFor_app, Hv.
    change [readRequest v buf;
            EvEnqueueBuffer aq buf ?size ?count ?descs]
      with ([readRequest v buf] ++ [EvEnqueueBuffer aq buf size count descs]).
    rewrite readsAskFor_app, Hread. reflexivity.
  - rewrite (HandleOutputBuffer_stop v aq buf Hrun Hzero). cbn [trace].
    rewrite readsAskFor_app, Hv.
    change [readRequest v buf; EvStop aq false]
      with ([readRequest v buf] ++ [EvStop aq false]).
    rewrite readsAskFor_app, Hread. reflexivity.
Qed.

(** X11: every call of [AudioFileReadPacketData] a run makes, however the
    run ends, asks for the buffer size and the number of packets that
    [DeriveBufferSize] gave for the format of the file, does not use the
    cache, and passes a packet description array exactly when the format is
    of variable bit rate. *)
Theorem main_reads_as_sized (env : Env) (t : Termination) (w : World)
        (outBufferSize outNumPacketsToRead : Z) :
  main env = Halt t w ->
  DeriveBufferSize (envDataFormat env) (envMaxPacketSize env) half_second
  = Some (outBufferSize, outNumPacketsToRead) ->
  readsAskFor outBufferSize outNumPacketsToRead (isFormatVBR (envDataFormat env))
              (trace w) = true.
Proof.
  intros Hmain Hsizes.
  destruct (resultCodeMessage (envOpenStatus env)) as [message|] eqn:Hopen.
  { destruct (Initialize_open_listed env message Hopen) as (w' & Hinit & Ht).
    unfold main in Hmain. rewrite Hinit in Hmain. injection Hmain as _ <-.
    rewrite Ht. reflexivity. }
  destruct (Z.eq_dec (envNewOutputStatus env) noErr) as [Hnew|Hnew].
  2:{ destruct (Initialize_no_queue env Hopen Hnew) as (w' & Hinit & Ht).
      unfold main in Hmain. rewrite Hinit in Hmain. injection Hmain as _ <-.
      rewrite Ht. reflexivity. }
  destruct (Initialize_ready env _ _ Hopen Hnew Hsizes)
    as (_ & _ & _ & Hbs & Hn & _ & Hd & _ & _ & _ & _ & Htr).
  set (wantDescs := isFormatVBR (envDataFormat env)) in *.
  assert (bufferByteSize (player w) = outBufferSize
          /\ mNumPacketsToRead (player w) = outNumPacketsToRead
          /\ is_NULL (mPacketDescs (player w)) = negb wantDescs
          /\ readsAskFor outBufferSize outNumPacketsToRead wantDescs (trace w) = true)
    as (_ & _ & _ & Hw); [|exact Hw].
  apply (kept_by_halt
           (fun v => bufferByteSize (player v) = outBufferSize
                     /\ mNumPacketsToRead (player v) = outNumPacketsToRead
                     /\ is_NULL (mPacketDescs (player v)) = negb wantDescs
                     /\ readsAskFor outBufferSize outNumPacketsToRead wantDescs
                                    (trace v) = true))
    with (env := env) (t := t) (outBufferSize := outBufferSize)
         (outNumPacketsToRead := outNumPacketsToRead); try assumption.
  - intros v aq buf (Hvb & Hvn & Hvd & Hvt).
    destruct (HandleOutputBuffer_frame v aq buf) as (_ & -> & _).
    destruct (HandleOutputBuffer_config v aq buf) as (_ & _ & -> & ->).
    repeat (split; [assumption|]).
    rewrite <- Hvb, <- Hvn. apply readsAskFor_callback; [exact Hvd|].
    rewrite Hvb, Hvn. exact Hvt.
  - intros v Hv. exact Hv.
  - intros v k (Hvb & Hvn & Hvd & Hvt). repeat (split; [assumption|]).
    exact (readsAskFor_log _ _ _ v (EvAllocateBuffer (bufferByteSize (player v))
                                   (List.length (queueBuffers v)))
                           eq_refl Hvt).
  - intros v e He _ (Hvb & Hvn & Hvd & Hvt). repeat (split; [assumption|]).
    exact (readsAskFor_log _ _ _ v e He Hvt).
  - intros v rest Hv. exact Hv.
  - repeat (split; [assumption|]). rewrite Htr.
    destruct (envHasMagicCookie env); reflexivity.
Qed.

Lemma main_reads_as_sized_witness :
  main aacLong = Halt (Exit 0) (finalWorld (main aacLong))
  /\ DeriveBufferSize (envDataFormat aacLong) (envMaxPacketSize aacLong) half_second
     = Some (16537, 21)
  /\ readsAskFor 16537 21 true (trace (finalWorld (main aacLong))) = true.
Proof.
  split; [vm_compute; reflexivity|]. split; [vm_compute; reflexivity|].
  apply (main_reads_as_sized aacLong (Exit 0)); vm_compute; reflexivity.
Defined.

(** ** What callbacks leave alone *)

(** X6: no sequence of callbacks changes what initialisation has set up:
    the format, the file, the queue, the buffer references, the buffer size
    and the number of packets per read stay as they are, the packet
    description array stays allocated or stays absent, and the queue keeps
    its number of buffers. *)
Theorem callbacks_keep_configuration (w : World) (aq : AudioQueueRef)
        (bufs : list AudioQueueBufferRef) :
  mDataFormat (player (callbacks w aq bufs)) = mDataFormat (player w)
  /\ mAudioFile (player (callbacks w aq bufs)) = mAudioFile (player w)
  /\ mQueue (player (callbacks w aq bufs)) = mQueue (player w)
  /\ mBuffers (player (callbacks w aq bufs)) = mBuffers (player w)
  /\ bufferByteSize (player (callbacks w aq bufs)) = bufferByteSize (player w)
  /\ mNumPacketsToRead (player (callbacks w aq bufs)) = mNumPacketsToRead (player w)
  /\ is_NULL (mPacketDescs (player (callbacks w aq bufs)))
     = is_NULL (mPacketDescs (player w))
  /\ List.length (queueBuffers (callbacks w aq bufs)) = List.length (queueBuffers w).
Proof.
  apply (kept_by_callbacks
           (fun v => mDataFormat (player v) = mDataFormat (player w)
                     /\ mAudioFile (player v) = mAudioFile (player w)
                     /\ mQueue (player v) = mQueue (player w)
                     /\ mBuffers (player v) = mBuffers (player w)
                     /\ bufferByteSize (player v) = bufferByteSize (player w)
                     /\ mNumPacketsToRead (player v) = mNumPacketsToRead (player w)
                     /\ is_NULL (mPacketDescs (player v))
                        = is_NULL (mPacketDescs (player w))
                     /\ List.length (queueBuffers v) = List.length (queueBuffers w))).
  - intros v aq' buf (H1 & H2 & H3 & H4 & H5 & H6 & H7 & H8).
    destruct (HandleOutputBuffer_frame v aq' buf) as (-> & -> & -> & -> & _).
    destruct (HandleOutputBuffer_config v aq' buf) as (-> & -> & -> & ->).
    repeat split; assumption.
  - repeat split.
Qed.

(** ** The buffers in the queue *)

Lemma HandleOutputBuffer_enqueued (v : World) (aq : AudioQueueRef)
      (buf : AudioQueueBufferRef) :
  enqueued (HandleOutputBuffer v aq buf) = enqueued v
  \/ enqueued (HandleOutputBuffer v aq buf) = enqueued v ++ [buf].
Proof.
  destruct (mIsRunning (player v)) eqn:Hrun.
  2:{ rewrite (HandleOutputBuffer_stopped_id v aq buf Hrun). left. reflexivity. }
  destruct (Z_lt_le_dec 0 (rdNumPackets (hd endOfFile (pendingReads v))))
    as [Hpos|Hzero].
  - rewrite (HandleOutputBuffer_refill v aq buf Hrun Hpos). right. reflexivity.
  - rewrite (HandleOutputBuffer_stop v aq buf Hrun Hzero). left. reflexivity.
Qed.

(** A callback run for a buffer that is not in the queue keeps the queue
    in order. *)
Lemma queue_wf_callback (v : World) (aq : AudioQueueRef)
      (buf : AudioQueueBufferRef) :
  queue_wf v ->
  ~ In buf (enqueued v) ->
  (buf < List.length (queueBuffers v))%nat ->
  queue_wf (HandleOutputBuffer v aq buf).
Proof.
  intros [Hnd Hall] Hfresh Hbuf. unfold queue_wf.
  destruct (HandleOutputBuffer_frame v aq buf) as (_ & _ & _ & -> & _).
  destruct (HandleOutputBuffer_enqueued v aq buf) as [-> | ->].
  - split; assumption.
  - split.
    + apply NoDup_app; [exact Hnd | repeat constructor; intros [] |].
      intros a Ha [<-|[]]. exact (Hfresh Ha).
    + apply Forall_app. split; [exact Hall|]. repeat constructor. exact Hbuf.
Qed.

Lemma queue_wf_primeBuffer (v : World) (k : nat) :
  (k < List.length (mBuffers (player v)))%nat ->
  queue_wf v -> queue_wf (primeBuffer v k).
Proof.
  intros Hk [Hnd Hall]. rewrite (primeBuffer_eq v k Hk).
  apply queue_wf_callback.
  - split; [exact Hnd|]. cbn [AudioQueueAllocateBuffer log queueBuffers enqueued].
    rewrite length_app. cbn [List.length].
    apply (Forall_impl _ (P := fun b => (b < List.length (queueBuffers v))%nat));
      [|exact Hall].
    intros b Hb. lia.
  - cbn [AudioQueueAllocateBuffer log enqueued]. intros Hin.
    pose proof (proj1 (Forall_forall _ _) Hall _ Hin) as Hlt. cbv beta in Hlt. lia.
  - cbn [AudioQueueAllocateBuffer log queueBuffers]. rewrite length_app.
    cbn [List.length]. lia.
Qed.

Lemma queue_wf_priming (v : World) :
  List.length (mBuffers (player v)) = kNumberBuffers ->
  queue_wf v -> queue_wf (AQPlayerState_AllocateBuffersAndPrime v).
Proof.
  intros Hlen Hv. unfold AQPlayerState_AllocateBuffersAndPrime.
  assert (forall k, In k (seq 0 kNumberBuffers) ->
                    (k < List.length (mBuffers (player
                           (set_player (set_mCurrentPacket 0) v))))%nat) as Hks.
  { intros k Hk%in_seq. cbn [set_player player set_mCurrentPacket mBuffers].
    rewrite Hlen. lia. }
  assert (queue_wf (set_player (set_mCurrentPacket 0) v)) as Hv0 by exact Hv.
  revert Hks Hv0. generalize (set_player (set_mCurrentPacket 0) v).
  generalize (seq 0 kNumberBuffers). clear v Hlen Hv.
  intros ks. induction ks as [|k ks IH]; intros v Hks Hv; [exact Hv|].
  cbn [fold_left]. apply IH.
  - intros j Hj. destruct (primeBuffer_frame v k) as (_ & _ & -> & _).
    rewrite length_array_set. apply Hks. right. exact Hj.
  - apply queue_wf_primeBuffer; [apply Hks; left; reflexivity | exact Hv].
Qed.

Lemma AllocateBuffersAndPrime_count (v : World) :
  List.length (queueBuffers (AQPlayerState_AllocateBuffersAndPrime v))
  = (kNumberBuffers + List.length (queueBuffers v))%nat.
Proof.
  unfold AQPlayerState_AllocateBuffersAndPrime.
  change (List.length (queueBuffers v))
    with (List.length (queueBuffers (set_player (set_mCurrentPacket 0) v))).
  generalize (set_player (set_mCurrentPacket 0) v).
  change kNumberBuffers with (List.length (seq 0 kNumberBuffers)) at 2.
  generalize (seq 0 kNumberBuffers). clear v.
  intros ks. induction ks as [|k ks IH]; intros v; [reflexivity|].
  cbn [fold_left List.length]. rewrite IH.
  destruct (primeBuffer_frame v k) as (_ & _ & _ & -> & _). lia.
Qed.

Lemma queue_wf_delivery (v v' : World) :
  queue_wf v -> deliverCallback v = Some v' -> queue_wf v'.
Proof.
  unfold deliverCallback. intros [Hnd Hall].
  destruct (enqueued v) as [|buf rest] eqn:Hq; [discriminate|].
  intros [= <-]. inversion Hnd as [|? ? Hfresh Hrest]; subst.
  inversion Hall as [|? ? Hbuf Hothers]; subst.
  apply queue_wf_callback; [split; assumption | exact Hfresh | exact Hbuf].
Qed.

(** X7: from the end of initialisation on, whatever number of completion
    callbacks the queue has delivered, no buffer is in the queue twice,
    every buffer in the queue is one of the [kNumberBuffers] buffers that
    priming allocated, and so at most [kNumberBuffers] buffers are in the
    queue. *)
Theorem playback_queue_in_order (env : Env) (w0 : World) (n : nat) :
  AQPlayerState_Initialize env (initialWorld env) = Continue w0 ->
  let w := drainCallbacks n (log (EvStart (envStartStatus env)) w0) in
  queue_wf w
  /\ List.length (queueBuffers w) = kNumberBuffers
  /\ (List.length (enqueued w) <= kNumberBuffers)%nat.
Proof.
  intros Hinit w.
  destruct (Initialize_continue env w0 Hinit)
    as (_ & bs & sz & _ & Hopen & Hnew & Hsizes & _).
  destruct (Initialize_ready env bs sz Hopen Hnew Hsizes)
    as (Heq & _ & _ & _ & _ & Hbufs & _ & _ & Hqb & Hq & _).
  rewrite Heq in Hinit. injection Hinit as Hw0.
  assert (List.length (mBuffers (player (readyToPrime env))) = kNumberBuffers) as Hlen
    by (rewrite Hbufs; reflexivity).
  assert (queue_wf (readyToPrime env)) as Hready.
  { unfold queue_wf. rewrite Hq. split; constructor. }
  pose proof (queue_wf_priming _ Hlen Hready) as Hprimed.
  pose proof (AllocateBuffersAndPrime_count (readyToPrime env)) as Hthree.
  rewrite Hqb in Hthree. cbn [List.length] in Hthree. rewrite Nat.add_0_r in Hthree.
  revert Hprimed Hthree Hw0.
  generalize (AQPlayerState_AllocateBuffersAndPrime (readyToPrime env)).
  intros primed Hprimed Hthree Hw0.
  assert (queue_wf w /\ List.length (queueBuffers w) = kNumberBuffers) as [Hwf Hcount].
  { assert (queue_wf (log (EvStart (envStartStatus env)) w0)
            /\ List.length (queueBuffers (log (EvStart (envStartStatus env)) w0))
               = kNumberBuffers) as Hstart
      by (subst w0; split; [exact Hprimed | exact Hthree]).
    subst w. revert Hstart. generalize (log (EvStart (envStartStatus env)) w0).
    clear. induction n as [|n IH]; intros v [Hv Hc]; [split; assumption|].
    cbn [drainCallbacks].
    destruct (deliverCallback v) as [v'|] eqn:Hd; [|split; assumption].
    apply IH. split; [exact (queue_wf_delivery v v' Hv Hd)|].
    revert Hd. unfold deliverCallback.
    destruct (enqueued v) as [|buf rest]; [discriminate|]. intros [= <-].
    destruct (HandleOutputBuffer_frame
                {| player := player v; queueBuffers := queueBuffers v;
                   enqueued := rest; pendingReads := pendingReads v;
                   trace := trace v |} (mQueue (player v)) buf)
      as (_ & _ & _ & -> & _).
    exact Hc. }
  repeat (split; [assumption|]).
  destruct Hwf as [Hnd Hall]. rewrite Hcount in Hall.
  change kNumberBuffers with (List.length (seq 0 kNumberBuffers)).
  apply NoDup_incl_length; [exact Hnd|].
  intros b Hb. apply in_seq.
  pose proof (proj1 (Forall_forall _ _) Hall _ Hb) as Hlt. cbv beta in Hlt. lia.
Qed.

Lemma playback_queue_in_order_witness :
  AQPlayerState_Initialize pcmLong (initialWorld pcmLong)
  = Continue (initialized pcmLong)
  /\ let w := drainCallbacks 2 (log (EvStart (envStartStatus pcmLong))
                                    (initialized pcmLong)) in
     queue_wf w
     /\ List.length (queueBuffers w) = kNumberBuffers
     /\ (List.length (enqueued w) <= kNumberBuffers)%nat.
Proof.
  split; [vm_compute; reflexivity|].
  apply (playback_queue_in_order pcmLong (initialized pcmLong) 2).
  vm_compute. reflexivity.
Defined.

(** ** Reading the file from its first packet to its end *)

Lemma startingPackets_snoc (from : Z) (done : list ReadResult) (r : ReadResult) :
  startingPackets from (done ++ [r])
  = startingPackets from done ++ [from + packetsIn done + rdNumPackets r].
Proof.
  revert from. induction done as [|d done IH]; intros from.
  - cbn [app startingPackets packetsIn fold_right]. do 2 f_equal. lia.
  - cbn [app startingPackets]. rewrite IH. cbn [app]. do 3 f_equal.
    unfold packetsIn. cbn [fold_right]. lia.
Qed.

Lemma playable_app (done rest : list ReadResult) :
  Forall (fun r => 0 < rdNumPackets r) done ->
  playable (done ++ rest) = done ++ playable rest.
Proof.
  induction 1 as [|d done Hd _ IH]; [reflexivity|].
  cbn [app playable]. apply Z.ltb_lt in Hd. rewrite Hd, IH. reflexivity.
Qed.

Lemma readStarts_app (l1 l2 : list Event) :
  readStarts (l1 ++ l2) = readStarts l1 ++ readStarts l2.
Proof. apply flat_map_app. Qed.

Lemma readInOrder_log (reads : list ReadResult) (v : World) (e : Event) :
  callbackEvent e = false -> readInOrder reads v -> readInOrder reads (log e v).
Proof.
  intros He (Hfits & done & Hpos & Hcur & Hcount & Hrest).
  split; [exact Hfits|]. exists done. cbn [log player trace].
  rewrite filter_app, length_app, readStarts_app.
  assert (filter isEnqueue [e] = [] /\ readStarts [e] = []) as [-> ->]
    by (destruct e; (split; reflexivity) || discriminate).
  rewrite Nat.add_0_r, app_nil_r. repeat (split; [assumption|]). exact Hrest.
Qed.

Lemma readInOrder_callback (reads : list ReadResult) (v : World)
      (aq : AudioQueueRef) (buf : AudioQueueBufferRef) :
  readInOrder reads v -> readInOrder reads (HandleOutputBuffer v aq buf).
Proof.
  intros Hv. destruct (mIsRunning (player v)) eqn:Hrun.
  2:{ rewrite (HandleOutputBuffer_stopped_id v aq buf Hrun). exact Hv. }
  destruct Hv as (Hfits & done & Hpos & Hcur & Hcount & Hrest).
  rewrite Hrun in Hrest. destruct Hrest as [Hsplit Hstarts].
  destruct (HandleOutputBuffer_cursor v aq buf Hfits) as (_ & _ & _ & Hfits').
  split; [exact Hfits'|]. clear Hfits'.
  destruct Hfits as (Hlow & Hhigh & Hnonneg).
  pose proof (packetsIn_nonneg _ Hnonneg) as Hsum.
  destruct (Z_lt_le_dec 0 (rdNumPackets (hd endOfFile (pendingReads v))))
    as [Hgave|Hnone].
  - rewrite (HandleOutputBuffer_refill v aq buf Hrun Hgave).
    destruct (pendingReads v) as [|r rest] eqn:Hpending;
      [cbn [hd endOfFile rdNumPackets] in Hgave; lia|].
    cbn [hd tl] in *. exists (done ++ [r]). cbn [player trace pendingReads].
    assert (packetsIn (r :: rest) = rdNumPackets r + packetsIn rest) as Hcons
      by reflexivity.
    pose proof (Forall_inv_tail Hnonneg) as Hrest.
    pose proof (packetsIn_nonneg _ Hrest) as Hsum'.
    assert (SInt64_add (mCurrentPacket (player v)) (rdNumPackets r)
            = packetsIn done + rdNumPackets r) as Hadd.
    { unfold SInt64_add. rewrite SInt64_wrap_in_range; [lia|].
      unfold is_SInt64, SInt64_MIN, SInt64_MAX in *. lia. }
    split; [apply Forall_app; split; [exact Hpos | repeat constructor; exact Hgave]|].
    split.
    { rewrite packetsIn_app. unfold packetsIn at 2. cbn [fold_right].
      destruct (mPacketDescs (player v));
        cbn [set_mCurrentPacket set_mPacketDescs mCurrentPacket]; rewrite Hadd; lia. }
    split.
    { rewrite filter_app, !length_app, Hcount. reflexivity. }
    assert (mIsRunning
              (set_mCurrentPacket
                 (SInt64_add (mCurrentPacket (player v)) (rdNumPackets r))
                 match mPacketDescs (player v) with
                 | Some _ => set_mPacketDescs (Some (rdDescs r)) (player v)
                 | None => player v
                 end) = true) as ->
      by (destruct (mPacketDescs (player v)); exact Hrun).
    split; [rewrite Hsplit, <- app_assoc; reflexivity|].
    rewrite readStarts_app. unfold readRequest at 1. unfold readStarts at 2.
    cbn [flat_map app]. rewrite startingPackets_snoc, <- Hstarts, <- app_assoc.
    rewrite Hcur, packetsIn_app. unfold packetsIn at 3. cbn [fold_right app].
    rewrite <- app_assoc. cbn [app]. do 3 f_equal. lia.
  - rewrite (HandleOutputBuffer_stop v aq buf Hrun Hnone).
    exists done. cbn [player trace pendingReads].
    split; [exact Hpos|]. split.
    { destruct (mPacketDescs (player v));
        cbn [set_mIsRunning set_mPacketDescs mCurrentPacket]; exact Hcur. }
    split.
    { rewrite filter_app, length_app, Hcount. cbn [filter isEnqueue readRequest].
      apply Nat.add_0_r. }
    assert (mIsRunning
              (set_mIsRunning false
                 match mPacketDescs (player v) with
                 | Some _ => set_mPacketDescs
                               (Some (rdDescs (hd endOfFile (pendingReads v)))) (player v)
                 | None => player v
                 end) = false) as -> by reflexivity.
    split.
    + rewrite Hsplit, (playable_app _ _ Hpos).
      destruct (pendingReads v) as [|r rest]; [apply app_nil_r|].
      cbn [hd] in Hnone. cbn [playable].
      apply Z.ltb_ge in Hnone. rewrite Hnone. apply app_nil_r.
    + rewrite readStarts_app, <- Hstarts, <- Hcur. reflexivity.
Qed.

(** X18: a run that returns 0 has read the file in order and to its end.
    The numbers of packets the reads give are those of a [UInt32], and
    together they fit a [SInt64].  Then the first read starts at packet 0,
    each later read starts where the one before it ended, and the last read
    is the first that gives no packets; there is one
    [AudioQueueEnqueueBuffer] for each read that gave packets; and the
    cursor ends at the number of packets enqueued. *)
Theorem main_reads_file_in_order (env : Env) (w : World) :
  Forall (fun r => 0 <= rdNumPackets r) (envReads env) ->
  packetsIn (envReads env) <= SInt64_MAX ->
  main env = Halt (Exit 0) w ->
  readStarts (trace w) = startingPackets 0 (playable (envReads env))
  /\ List.length (filter isEnqueue (trace w))
     = List.length (playable (envReads env))
  /\ mCurrentPacket (player w) = packetsIn (playable (envReads env)).
Proof.
  intros Hnonneg Hsum Hmain.
  destruct (main_exit_0_inv env w Hmain)
    as (bs & n & Hopen & Hnew & Hsizes & _ & Hstop & _).
  assert (readInOrder (envReads env) w) as (_ & done & _ & Hcur & Hcount & Hrest).
  { apply (kept_by_main_from (readInOrder (envReads env))) with (env := env).
    - apply readInOrder_callback.
    - intros v k Hv.
      assert (readInOrder (envReads env)
                (log (EvAllocateBuffer (bufferByteSize (player v))
                                   (List.length (queueBuffers v))) v))
        as (Hfits & Hdone) by (apply readInOrder_log; [reflexivity | exact Hv]).
      split; [exact Hfits | exact Hdone].
    - intros v e He _ Hv. exact (readInOrder_log _ v e He Hv).
    - intros v rest Hv. exact Hv.
    - exact Hmain.
    - destruct (Initialize_ready env bs n Hopen Hnew Hsizes)
        as (_ & _ & _ & _ & _ & _ & _ & Hrun & _ & _ & Hreads & Ht).
      revert Hrun Hreads Ht. generalize (readyToPrime env).
      intros ready Hrun Hreads Ht.
      split; [|exists []]; unfold cursor_fits;
        cbn [set_player set_mCurrentPacket player mCurrentPacket mIsRunning
             pendingReads trace].
      + rewrite Hreads. repeat split; [lia | lia | exact Hnonneg].
      + rewrite Hrun, Hreads, Ht.
        destruct (envHasMagicCookie env); repeat split; constructor. }
  rewrite Hstop in Hrest. destruct Hrest as [-> Hstarts].
  repeat split; assumption.
Qed.

Lemma main_reads_file_in_order_witness :
  main pcmLong = Halt (Exit 0) (finalWorld (main pcmLong))
  /\ readStarts (trace (finalWorld (main pcmLong))) = [0; 8; 16; 24; 29]
  /\ List.length (filter isEnqueue (trace (finalWorld (main pcmLong)))) = 4%nat
  /\ mCurrentPacket (player (finalWorld (main pcmLong))) = 29.
Proof.
  split; [vm_compute; reflexivity|].
  apply (main_reads_file_in_order pcmLong (finalWorld (main pcmLong))).
  - repeat constructor; vm_compute; discriminate.
  - vm_compute. discriminate.
  - vm_compute. reflexivity.
Defined.

(** ** Buffers and their capacity *)

Lemma Forall_array_set {A : Type} (Q : A -> Prop) (l : list A) (k : nat) (x : A) :
  Forall Q l -> Q x -> Forall Q (array_set l k x).
Proof.
  intros Hl Hx. revert k. induction Hl as [|h t Hh Ht IH]; intros k; [constructor|].
  destruct k as [|k]; cbn [array_set]; constructor; auto.
Qed.

Lemma Forall_update_buffer (Q : AudioQueueBuffer -> Prop) (v : World)
      (buf : AudioQueueBufferRef) (f : AudioQueueBuffer -> AudioQueueBuffer) :
  (forall b, Q b -> Q (f b)) ->
  Forall Q (queueBuffers v) -> Forall Q (queueBuffers (update_buffer buf f v)).
Proof.
  intros Hf Hv. unfold update_buffer. cbn [queueBuffers].
  destruct (nth_error (queueBuffers v) buf) as [b|] eqn:Hb; [|exact Hv].
  apply Forall_array_set; [exact Hv|]. apply Hf.
  exact (proj1 (Forall_forall _ _) Hv b (nth_error_In _ _ Hb)).
Qed.

Lemma read_within_hd (size : Z) (reads : list ReadResult) :
  0 <= size ->
  Forall (read_within size) reads ->
  read_within size (hd endOfFile reads) /\ Forall (read_within size) (tl reads).
Proof.
  intros Hsize [|r rest Hr Hrest]; cbn [hd tl].
  - split; [|constructor]. unfold read_within. cbn. lia.
  - split; assumption.
Qed.

(** A callback of a player whose reads keep to the buffer size leaves every
    buffer within its capacity. *)
Lemma within_capacity_callback (size : Z) (v : World) (aq : AudioQueueRef)
      (buf : AudioQueueBufferRef) :
  0 <= size ->
  Forall (within_capacity size) (queueBuffers v)
  /\ Forall (read_within size) (pendingReads v) ->
  Forall (within_capacity size) (queueBuffers (HandleOutputBuffer v aq buf))
  /\ Forall (read_within size) (pendingReads (HandleOutputBuffer v aq buf)).
Proof.
  intros Hsize [Hbufs Hreads].
  destruct (mIsRunning (player v)) eqn:Hrun.
  2:{ rewrite (HandleOutputBuffer_stopped_id v aq buf Hrun). split; assumption. }
  destruct (read_within_hd size _ Hsize Hreads) as [[Hbytes Hdata] Hrest].
  assert (Forall (within_capacity size)
            (queueBuffers (update_buffer buf
                             (set_mAudioData (rdData (hd endOfFile (pendingReads v))))
                             v))) as Hwritten.
  { apply Forall_update_buffer; [|exact Hbufs].
    intros b (Hcap & Hfill & _). repeat split; assumption || apply Hfill. }
  destruct (Z_lt_le_dec 0 (rdNumPackets (hd endOfFile (pendingReads v))))
    as [Hgave|Hnone].
  - rewrite (HandleOutputBuffer_refill v aq buf Hrun Hgave).
    cbn [queueBuffers pendingReads]. split; [|exact Hrest].
    apply Forall_update_buffer; [|exact Hwritten].
    intros b (Hcap & _ & Hlen). repeat split; assumption || apply Hbytes.
  - rewrite (HandleOutputBuffer_stop v aq buf Hrun Hnone).
    cbn [queueBuffers pendingReads]. split; assumption.
Qed.

Lemma Initialize_halt_no_buffers (env : Env) (t : Termination) (w : World) :
  AQPlayerState_Initialize env (initialWorld env) = Halt t w -> queueBuffers w = [].
Proof.
  unfold AQPlayerState_Initialize, AQPlayerState_InitAudioFile, PrintResultCodes,
    AQPlayerState_InitOutputQueue, CheckError, AQPlayerState_InitSizes.
  destruct (resultCodeMessage (envOpenStatus env)); [intros [= _ <-]; reflexivity|].
  cbn [andThen].
  destruct (envNewOutputStatus env =? noErr); [|intros [= _ <-]; reflexivity].
  cbn [andThen]. unfold AQPlayerState_InitBasicDescription.
  cbn [player set_player log mDataFormat set_file_format_queue].
  destruct (DeriveBufferSize (envDataFormat env) (envMaxPacketSize env) half_second)
    as [[bs n]|]; [discriminate | intros [= _ <-]; reflexivity].
Qed.

(** X19: every buffer of the queue has the capacity [bufferByteSize] that
    [DeriveBufferSize] gave, which is also the number of bytes each read is
    allowed.  So when [AudioFileReadPacketData] keeps to the bytes it is
    allowed, no buffer ever holds more than its capacity, and
    [mAudioDataByteSize] never exceeds [mAudioDataBytesCapacity], however the
    run ends. *)
Theorem buffers_within_capacity (env : Env) (t : Termination) (w : World)
        (outBufferSize outNumPacketsToRead : Z) :
  main env = Halt t w ->
  DeriveBufferSize (envDataFormat env) (envMaxPacketSize env) half_second
  = Some (outBufferSize, outNumPacketsToRead) ->
  Forall (read_within outBufferSize) (envReads env) ->
  Forall (within_capacity outBufferSize) (queueBuffers w).
Proof.
  intros Hmain Hsizes Hreads.
  destruct (AQPlayerState_Initialize env (initialWorld env)) as [w0|t0 w0] eqn:Hinit.
  2:{ unfold main in Hmain. rewrite Hinit in Hmain. injection Hmain as _ <-.
      rewrite (Initialize_halt_no_buffers env t0 w0 Hinit). constructor. }
  destruct (Initialize_continue env w0 Hinit)
    as (_ & bs & n & _ & Hopen & Hnew & Hsizes' & _).
  clear Hinit w0. rewrite Hsizes in Hsizes'. injection Hsizes' as <- <-.
  assert (0 <= outBufferSize) as Hsize.
  { destruct (DeriveBufferSize_inv _ _ _ _ _ Hsizes) as (size & _ & _ & -> & _).
    pose proof (clampBufferSize_lower size (envMaxPacketSize env)).
    unfold minBufferSize in *. lia. }
  destruct (Initialize_ready env _ _ Hopen Hnew Hsizes)
    as (_ & _ & _ & Hbs & _ & _ & _ & _ & Hqb & _ & Hpending & _).
  assert (bufferByteSize (player w) = outBufferSize
          /\ Forall (within_capacity outBufferSize) (queueBuffers w)
          /\ Forall (read_within outBufferSize) (pendingReads w))
    as (_ & Hw & _); [|exact Hw].
  apply (kept_by_halt
           (fun v => bufferByteSize (player v) = outBufferSize
                     /\ Forall (within_capacity outBufferSize) (queueBuffers v)
                     /\ Forall (read_within outBufferSize) (pendingReads v)))
    with (env := env) (t := t) (outBufferSize := outBufferSize)
         (outNumPacketsToRead := outNumPacketsToRead); try assumption.
  - intros v aq buf (Hvb & Hv).
    destruct (HandleOutputBuffer_frame v aq buf) as (_ & -> & _).
    split; [exact Hvb|]. exact (within_capacity_callback _ v aq buf Hsize Hv).
  - intros v Hv. exact Hv.
  - intros v k (Hvb & Hvq & Hvr). split; [exact Hvb|]. split; [|exact Hvr].
    cbn [AudioQueueAllocateBuffer log queueBuffers].
    apply Forall_app. split; [exact Hvq|]. repeat constructor; cbn; lia.
  - intros v e _ _ Hv. exact Hv.
  - intros v rest Hv. exact Hv.
  - rewrite Hbs, Hqb, Hpending. repeat split; [constructor | exact Hreads].
Qed.

Lemma buffers_within_capacity_witness :
  main aacLong = Halt (Exit 0) (finalWorld (main aacLong))
  /\ Forall (within_capacity 16537) (queueBuffers (finalWorld (main aacLong))).
Proof.
  split; [vm_compute; reflexivity|].
  apply (buffers_within_capacity aacLong (Exit 0) _ 16537 21).
  - vm_compute. reflexivity.
  - vm_compute. reflexivity.
  - repeat constructor; vm_compute; discriminate.
Defined.

End RunFacts.
